(** * Store readiness gate and provider source resolution

    A shallow embedding of [pkg/core/database/postgres/executor.go] and
    [pkg/core/core.go].  Go strings are byte strings ([string]); a Go
    [error] value is an element of the inductive type [error] and a
    possibly-nil error is an [option error]; the store behind a connection
    pool is a record of replies, and every operation performed on it is
    appended to a log of events, so that what a validation pass did and did
    not attempt can be read off the log. *)

From Stdlib Require Import String Ascii List ZArith NArith Bool Lia.
Import ListNotations.

Local Open Scope string_scope.
Local Open Scope list_scope.

(** ** Go's [strings] package *)

Module Strings.

(** [asciiSpace] of package [strings]: tab, line feed, vertical tab, form
    feed, carriage return and space. *)
Definition asciiSpace (c : ascii) : bool :=
  let n := N_of_ascii c in
  (((9 <=? n) && (n <=? 13)) || (n =? 32))%N.

(** The two-byte encodings of white space: U+0085 and U+00A0. *)
Definition space2 (b0 b1 : N) : bool :=
  ((b0 =? 194) && ((b1 =? 133) || (b1 =? 160)))%N.

(** The three-byte encodings of white space: U+1680, U+2000..U+200A,
    U+2028, U+2029, U+202F, U+205F and U+3000. *)
Definition space3 (b0 b1 b2 : N) : bool :=
  (((b0 =? 225) && (b1 =? 154) && (b2 =? 128))
   || ((b0 =? 226) && (b1 =? 128)
         && (((128 <=? b2) && (b2 <=? 138)) || (b2 =? 168) || (b2 =? 169) || (b2 =? 175)))
   || ((b0 =? 226) && (b1 =? 129) && (b2 =? 159))
   || ((b0 =? 227) && (b1 =? 128) && (b2 =? 128)))%N.

(** Number of bytes of the white-space rune ([unicode.IsSpace]) that [s]
    starts with, [0] when [s] does not start with one.  A white-space rune
    has a single valid UTF-8 encoding, whose first byte is never a
    continuation byte, so matching the encodings byte-wise agrees with
    decoding rune by rune. *)
Definition spaceWidth (s : string) : nat :=
  match s with
  | EmptyString => 0
  | String c0 r0 =>
      if asciiSpace c0 then 1
      else
        match r0 with
        | EmptyString => 0
        | String c1 r1 =>
            if space2 (N_of_ascii c0) (N_of_ascii c1) then 2
            else
              match r1 with
              | EmptyString => 0
              | String c2 _ =>
                  if space3 (N_of_ascii c0) (N_of_ascii c1) (N_of_ascii c2)
                  then 3 else 0
              end
        end
  end.

(** A finished field is kept only when it is not empty. *)
Definition consField (f : string) (fs : list string) : list string :=
  match f with
  | EmptyString => fs
  | _ => f :: fs
  end.

(** [scan s skip] walks [s] and returns the field that starts at its head
    (empty when the head is white space) together with the later fields;
    [skip] counts the bytes still to be passed of a white-space rune that
    is wider than one byte. *)
Fixpoint scan (s : string) (skip : nat) : string * list string :=
  match s with
  | EmptyString => (EmptyString, [])
  | String c rest =>
      match skip with
      | S k => let (f, fs) := scan rest k in (EmptyString, consField f fs)
      | O =>
          match spaceWidth s with
          | O => let (f, fs) := scan rest 0 in (String c f, fs)
          | S k => let (f, fs) := scan rest k in (EmptyString, consField f fs)
          end
      end
  end.

(** [strings.Fields]: the maximal runs of bytes that are not white space,
    in order; the empty list when there are none. *)
Definition Fields (s : string) : list string :=
  let (f, fs) := scan s 0 in consField f fs.

(** [strings.HasPrefix]. *)
Fixpoint HasPrefix (s p : string) : bool :=
  match p, s with
  | EmptyString, _ => true
  | String _ _, EmptyString => false
  | String a p', String b s' => Ascii.eqb a b && HasPrefix s' p'
  end.

(** [strings.Contains]: [substr] occurs somewhere within [s]. *)
Fixpoint Contains (s substr : string) : bool :=
  HasPrefix s substr
  || match s with
     | EmptyString => false
     | String _ s' => Contains s' substr
     end.

(** [strings.Join]. *)
Fixpoint Join (elems : list string) (sep : string) : string :=
  match elems with
  | [] => ""
  | [e] => e
  | e :: es => e ++ sep ++ Join es sep
  end.

(** The pieces of [s] between the occurrences of the byte [sep]
    ([strings.Split] with a one-byte separator); never the empty list. *)
Fixpoint splitByte (sep : ascii) (s : string) : list string :=
  match s with
  | EmptyString => [EmptyString]
  | String c rest =>
      if Ascii.eqb c sep then EmptyString :: splitByte sep rest
      else
        match splitByte sep rest with
        | [] => [String c EmptyString]
        | p :: ps => String c p :: ps
        end
  end.

End Strings.

(** ** Errors

    One constructor for each place an error value is made.  [DriverError]
    stands for whatever the driver returns from connecting, pinging,
    acquiring and querying; the other constructors are the [fmt.Errorf]
    calls of [executor.go], the version library's parse error and the
    registry's rejection of a provider name. *)
Inductive error : Type :=
| DriverError (msg : string)
| ErrFailedToParseVersion (result : string)
| ErrGettingVersion (cause : error)
| ErrUnsupportedVersion (got want : list Z)
| ErrMalformedVersion (v : string)
| ErrInvalidProviderReference (name : string).

(** ** The version library *)

Module version.

(** Modelled from the spec: the version library ([version.Version],
    [version.NewVersion], [LessThan]) is not under src/.  A version is "a
    dot-delimited ordered tuple of integers". *)
Definition Version : Type := list Z.

(** Modelled from the spec: comparing a tuple whose components are all
    missing, hence zero, with [b]. *)
Fixpoint compareZeros (b : Version) : comparison :=
  match b with
  | [] => Eq
  | y :: b' =>
      match (0 ?= y)%Z with
      | Eq => compareZeros b'
      | c => c
      end
  end.

(** Modelled from the spec: "compare major, then minor, then patch,
    numerically, left to right; missing trailing components are treated as
    zero". *)
Fixpoint Compare (a b : Version) : comparison :=
  match a with
  | [] => compareZeros b
  | x :: a' =>
      match b with
      | [] =>
          match (x ?= 0)%Z with
          | Eq => Compare a' []
          | c => c
          end
      | y :: b' =>
          match (x ?= y)%Z with
          | Eq => Compare a' b'
          | c => c
          end
      end
  end.

(** Modelled from the spec: [LessThan] is [compare(v, o) = less]. *)
Definition LessThan (v o : Version) : bool :=
  match Compare v o with
  | Lt => true
  | _ => false
  end.

(** Modelled from the spec: [isAtLeast(got, want)] is
    [compare(got, want) != less]. *)
Definition isAtLeast (got want : Version) : bool := negb (LessThan got want).

(** Modelled from the spec: the value of a decimal digit. *)
Definition digit (c : ascii) : option Z :=
  let n := N_of_ascii c in
  if ((48 <=? n) && (n <=? 57))%N then Some (Z.of_N n - 48)%Z else None.

(** Modelled from the spec: the number a run of decimal digits writes,
    continuing from [acc]. *)
Fixpoint digits (s : string) (acc : Z) : option Z :=
  match s with
  | EmptyString => Some acc
  | String c rest =>
      match digit c with
      | Some d => digits rest (10 * acc + d)%Z
      | None => None
      end
  end.

(** Modelled from the spec: a numeric component is a non-empty run of
    decimal digits. *)
Definition component (s : string) : option Z :=
  match s with
  | EmptyString => None
  | _ => digits s 0%Z
  end.

(** Modelled from the spec: every dot-delimited part must be a numeric
    component. *)
Fixpoint components (parts : list string) : option (list Z) :=
  match parts with
  | [] => Some []
  | p :: ps =>
      match component p, components ps with
      | Some n, Some ns => Some (n :: ns)
      | _, _ => None
      end
  end.

(** Modelled from the spec: "whitespace-trimming", at the front. *)
Fixpoint trimLeft (s : string) : string :=
  match s with
  | EmptyString => EmptyString
  | String c rest => if Strings.asciiSpace c then trimLeft rest else s
  end.

(** Modelled from the spec: "whitespace-trimming", at the back. *)
Fixpoint trimRight (s : string) : string :=
  match s with
  | EmptyString => EmptyString
  | String c rest =>
      match trimRight rest with
      | EmptyString =>
          if Strings.asciiSpace c then EmptyString else String c EmptyString
      | r => String c r
      end
  end.

(** Modelled from the spec: "parsing fails with MalformedVersion if the
    string is empty, contains no numeric component, or is not recognizable
    after whitespace-trimming"; what is recognised is a dot-delimited tuple
    of decimal integers. *)
Definition NewVersion (v : string) : Version + error :=
  match components (Strings.splitByte "."%char (trimRight (trimLeft v))) with
  | Some segments => inl segments
  | None => inr (ErrMalformedVersion v)
  end.

(** [version.Must] panics on an error; the only call, on the literal
    ["10.0"], parses (lemma [MinPostgresVersion_parses]), so the branch
    that stands for the panic is never taken. *)
Definition Must (r : Version + error) : Version :=
  match r with
  | inl v => v
  | inr _ => []
  end.

End version.

(** ** Contexts, the store and the log of operations *)

(** [time.Duration]: a number of nanoseconds. *)
Definition Duration : Type := Z.

Definition Second : Duration := 1000000000%Z.

(** A [context.Context] as the code builds it: the caller's context, or a
    child derived from a parent by [context.WithTimeout]. *)
Inductive Context : Type :=
| Background
| WithTimeout (parent : Context) (timeout : Duration).

Module model.

(** [model.DatabaseInfo], with the fields [GetDatabaseInfo] fills in. *)
Record DatabaseInfo : Type := mkDatabaseInfo {
  Version : string;
  Uptime : Duration;
  FullVersion : string
}.

(** The zero value of the struct. *)
Definition zero : DatabaseInfo :=
  {| Version := ""; Uptime := 0%Z; FullVersion := "" |}.

End model.

(** What [pgxscan.Get] does to a destination of each of the two types the
    code scans into: the value it leaves there and the error it returns.
    Nothing is assumed about the destination when the error is not nil. *)
Class Querier (Q : Type) : Type := {
  scanString : Q -> Context -> string -> string * option error;
  scanInfo : Q -> Context -> string -> model.DatabaseInfo * option error
}.

(** A connection leased from the pool ([*pgxpool.Conn]). *)
Record Conn : Type := mkConn {
  connString : Context -> string -> string * option error;
  connInfo : Context -> string -> model.DatabaseInfo * option error
}.

(** A connection pool ([*pgxpool.Pool]) over some store: how the store
    answers a ping, a lease and a query sent through the pool. *)
Record Pool : Type := mkPool {
  pingReply : Context -> option error;
  acquireReply : Context -> Conn + error;
  poolString : Context -> string -> string * option error;
  poolInfo : Context -> string -> model.DatabaseInfo * option error
}.

#[export] Instance Querier_Conn : Querier Conn :=
  {| scanString := connString; scanInfo := connInfo |}.

#[export] Instance Querier_Pool : Querier Pool :=
  {| scanString := poolString; scanInfo := poolInfo |}.

(** The operations a validation pass can perform on the outside world. *)
Inductive Event : Type :=
| EvConnect (ctx : Context) (dsn : string)
| EvPing (ctx : Context)
| EvCancel (ctx : Context)
| EvAcquire (ctx : Context)
| EvRelease
| EvQuery (ctx : Context) (sql : string).

(** Code that talks to the store: it reads the log of what was done so far
    and returns its result with the extended log. *)
Definition IO (A : Type) : Type := list Event -> A * list Event.

Definition ret {A : Type} (a : A) : IO A := fun log => (a, log).

Definition bind {A B : Type} (m : IO A) (k : A -> IO B) : IO B :=
  fun log => let (a, log') := m log in k a log'.

Definition emit (ev : Event) : IO unit := fun log => (tt, log ++ [ev]).

Declare Scope io_scope.
Delimit Scope io_scope with io.
Notation "x <- m ;; k" := (bind m (fun x => k))
  (at level 61, m at next level, right associativity) : io_scope.
Notation "' pat <- m ;; k" := (bind m (fun x => match x with pat => k end))
  (at level 61, pat pattern, m at next level, right associativity) : io_scope.
Notation "m ;; k" := (bind m (fun _ => k))
  (at level 61, right associativity) : io_scope.

(** Running from an empty log: the result, and everything that was done. *)
Definition result {A : Type} (m : IO A) : A := fst (m []).
Definition trace {A : Type} (m : IO A) : list Event := snd (m []).

Local Open Scope io_scope.

(** [pgxscan.Get] into a [string] destination. *)
Definition GetString {Q : Type} `{Querier Q}
    (ctx : Context) (q : Q) (sql : string) : IO (string * option error) :=
  emit (EvQuery ctx sql) ;; ret (scanString q ctx sql).

(** [pgxscan.Get] into a [model.DatabaseInfo] destination. *)
Definition GetInfo {Q : Type} `{Querier Q}
    (ctx : Context) (q : Q) (sql : string)
    : IO (model.DatabaseInfo * option error) :=
  emit (EvQuery ctx sql) ;; ret (scanInfo q ctx sql).

(** ** [executor.go] *)

Module postgres.

Record Executor : Type := mkExecutor {
  dsn : string;
  dbId : string;
  info : model.DatabaseInfo
}.

Definition MinPostgresVersion : version.Version :=
  version.Must (version.NewVersion "10.0").

Definition New (dsn : string) : Executor :=
  {| dsn := dsn; dbId := ""; info := model.zero |}.

Definition sqlDatabaseId : string :=
  "SELECT system_identifier::varchar AS id FROM pg_control_system()".

Definition sqlDatabaseInfo : string :=
  "SELECT split_part(current_setting('server_version'), ' ', 1) as version,"
  ++ String (ascii_of_nat 10) (String (ascii_of_nat 9)
  "date_trunc('second', current_timestamp - pg_postmaster_start_time()) as uptime, version() as full_version").

Definition sqlVersion : string := "SELECT version()".

(** The child context gets a deadline ten seconds away; the deferred
    [cancel] runs once [Ping] has returned, whatever it returned. *)
Definition ValidatePostgresConnection (ctx : Context) (pool : Pool)
    : IO (option error) :=
  let ctx' := WithTimeout ctx (Second * 10)%Z in
  emit (EvPing ctx') ;;
  let err := pingReply pool ctx' in
  emit (EvCancel ctx') ;;
  ret err.

Definition GetDatabaseId {Q : Type} `{Querier Q} (ctx : Context) (q : Q)
    : IO (string * option error) :=
  '(result, err) <- GetString ctx q sqlDatabaseId ;;
  ret (result, err).

Definition GetDatabaseInfo {Q : Type} `{Querier Q} (ctx : Context) (q : Q)
    : IO model.DatabaseInfo :=
  '(result, err) <- GetInfo ctx q sqlDatabaseInfo ;;
  match err with
  | Some _ =>
      ret {| model.Version := "unknown";
             model.Uptime := 0%Z;
             model.FullVersion := "unknown" |}
  | None => ret result
  end.

Definition runningPostgresVersion {Q : Type} `{Querier Q}
    (ctx : Context) (q : Q) : IO (version.Version + error) :=
  '(result, err) <- GetString ctx q sqlVersion ;;
  match err with
  | Some err => ret (inr err)
  | None =>
      let fields := Strings.Fields result in
      if (length fields <? 2)%nat
      then ret (inr (ErrFailedToParseVersion result))
      else ret (version.NewVersion (nth 1 fields ""))
  end.

Definition doValidatePostgresVersion {Q : Type} `{Querier Q}
    (ctx : Context) (q : Q) (want : version.Version) : IO (option error) :=
  r <- runningPostgresVersion ctx q ;;
  match r with
  | inr err => ret (Some (ErrGettingVersion err))
  | inl got =>
      if version.LessThan got want
      then ret (Some (ErrUnsupportedVersion got want))
      else ret None
  end.

(** The deferred [conn.Release] runs after the check on the leased
    connection, and only when the lease succeeded. *)
Definition ValidatePostgresVersion (ctx : Context) (pool : Pool)
    : IO (option error) :=
  emit (EvAcquire ctx) ;;
  match acquireReply pool ctx with
  | inr err => ret (Some err)
  | inl conn =>
      r <- doValidatePostgresVersion ctx conn MinPostgresVersion ;;
      emit EvRelease ;;
      ret r
  end.

Section Gate.

(** [sdkpg.Connect]: the pool a connection string leads to, or the error
    of establishing the connection. *)
Variable connect : Context -> string -> Pool + error.

Definition Connect (ctx : Context) (dsn : string) : IO (Pool + error) :=
  emit (EvConnect ctx dsn) ;; ret (connect ctx dsn).

(** The method mutates its receiver: the executor after the pass is
    returned next to the pair of results. *)
Definition Validate (e : Executor) (ctx : Context)
    : IO (Executor * (bool * option error)) :=
  r <- Connect ctx (dsn e) ;;
  match r with
  | inr err => ret (e, (false, Some err))
  | inl pool =>
      perr <- ValidatePostgresConnection ctx pool ;;
      match perr with
      | Some err => ret (e, (false, Some err))
      | None =>
          '(id, dbIdErr) <- GetDatabaseId ctx pool ;;
          let e := {| dsn := dsn e; dbId := id; info := info e |} in
          i <- GetDatabaseInfo ctx pool ;;
          let e := {| dsn := dsn e; dbId := dbId e; info := i |} in
          verr <- ValidatePostgresVersion ctx pool ;;
          match verr with
          | Some err => ret (e, (true, Some err))
          | None => ret (e, (true, dbIdErr))
          end
      end
  end.

End Gate.

Definition Info (e : Executor) (_ : Context)
    : IO (model.DatabaseInfo * option error) :=
  ret (info e, None).

Definition Identifier (e : Executor) (_ : Context) : IO (string * bool) :=
  if String.eqb (dbId e) "" then ret ("", false) else ret (dbId e, true).

End postgres.

(** ** [core.go] *)

Module config.

(** [config.RequiredProvider], with the two fields [ParseProviderSource]
    reads; the [*string] field is an [option]. *)
Record RequiredProvider : Type := mkRequiredProvider {
  Name : string;
  Source : option string
}.

End config.

Module registry.

Section Registry.

(** The organization a bare provider name belongs to. *)
Variable DefaultOrganization : string.

(** Modelled from the spec: [registry.ParseProviderName] is not under
    src/.  A byte of a "normalized identifier": "lowercase alphanumeric
    plus hyphen". *)
Definition identByte (c : ascii) : bool :=
  let n := N_of_ascii c in
  (((97 <=? n) && (n <=? 122)) || ((48 <=? n) && (n <=? 57)) || (n =? 45))%N.

(** Modelled from the spec: no byte of [s] is a disallowed character. *)
Fixpoint allIdentBytes (s : string) : bool :=
  match s with
  | EmptyString => true
  | String c rest => identByte c && allIdentBytes rest
  end.

(** Modelled from the spec: a half of a reference is valid when it is a
    "non-empty, normalized identifier". *)
Definition identifier (s : string) : bool :=
  match s with
  | EmptyString => false
  | _ => allIdentBytes s
  end.

(** Modelled from the spec: [registry.ParseProviderName] is not under
    src/.  It "splits on the separator and validates both halves",
    resolves a bare name to the default organization, and "fails with
    InvalidProviderReference if the string contains more than one
    separator, or either half is empty or contains disallowed
    characters". *)
Definition ParseProviderName (name : string) : string * string * option error :=
  match Strings.splitByte "/"%char name with
  | [provider] =>
      if identifier provider
      then (DefaultOrganization, provider, None)
      else ("", "", Some (ErrInvalidProviderReference name))
  | [org; provider] =>
      if identifier org && identifier provider
      then (org, provider, None)
      else ("", "", Some (ErrInvalidProviderReference name))
  | _ => ("", "", Some (ErrInvalidProviderReference name))
  end.

End Registry.

End registry.

Module core.

Section Resolver.

(** The registry's name parser, which the resolver calls once. *)
Variable ParseProviderName : string -> string * string * option error.

(** The string the resolver hands to the registry's parser. *)
Definition effectiveSource (requestedProvider : config.RequiredProvider) : string :=
  match config.Source requestedProvider with
  | None => config.Name requestedProvider
  | Some source =>
      if String.eqb source ""
      then config.Name requestedProvider
      else
        if negb (Strings.Contains source "/")
        then Strings.Join [source; config.Name requestedProvider] "/"
        else source
  end.

Definition ParseProviderSource (requestedProvider : config.RequiredProvider)
    : string * string * option error :=
  let requestedSource := effectiveSource requestedProvider in
  ParseProviderName requestedSource.

End Resolver.

(** The resolver of the spec: requested source (or none) and fallback
    name, over the registry's parser. *)
Definition resolve (defaultOrg : string) (requestedSource : option string)
    (fallbackName : string) : string * string * option error :=
  ParseProviderSource (registry.ParseProviderName defaultOrg)
    {| config.Name := fallbackName; config.Source := requestedSource |}.

End core.

(** ** Stores used to run the gate on concrete inputs *)

Module Fake.

Import postgres.

Definition banner13 : string :=
  "PostgreSQL 13.4 on x86_64-pc-linux-gnu, compiled by gcc 10.2.1, 64-bit".

Definition banner96 : string :=
  "PostgreSQL 9.6 on x86_64-pc-linux-gnu, compiled by gcc 4.8.5, 64-bit".

Definition timeoutErr : error := DriverError "context deadline exceeded".
Definition deniedErr : error := DriverError "permission denied for function pg_control_system".

Definition goodInfo : model.DatabaseInfo :=
  {| model.Version := "13.4"; model.Uptime := (3600 * Second)%Z;
     model.FullVersion := banner13 |}.

(** A store answering every string query by the SQL text it is sent. *)
Definition answers (id banner : string * option error)
    (_ : Context) (sql : string) : string * option error :=
  if String.eqb sql sqlDatabaseId then id
  else if String.eqb sql sqlVersion then banner
  else ("", Some (DriverError "unexpected query")).

(** A connection leased from such a store. *)
Definition lease (id : string * option error)
    (status : model.DatabaseInfo * option error)
    (banner : string * option error) : Conn :=
  {| connString := answers id banner;
     connInfo := fun _ _ => status |}.

Definition pool (ping : option error) (id : string * option error)
    (status : model.DatabaseInfo * option error)
    (banner : string * option error) : Pool :=
  {| pingReply := fun _ => ping;
     acquireReply := fun _ => inl (lease id status banner);
     poolString := answers id banner;
     poolInfo := fun _ _ => status |}.

Definition systemId : string := "7104958176412267531".

Definition healthy : Pool :=
  pool None (systemId, None) (goodInfo, None) (banner13, None).

Definition unreachable : Pool :=
  pool (Some timeoutErr) (systemId, None) (goodInfo, None) (banner13, None).

Definition idDenied : Pool :=
  pool None ("", Some deniedErr) (goodInfo, None) (banner13, None).

Definition emptyId : Pool :=
  pool None ("", None) (goodInfo, None) (banner13, None).

Definition statusDown : Pool :=
  pool None (systemId, None) (goodInfo, Some timeoutErr) (banner13, None).

Definition tooOld : Pool :=
  pool None (systemId, None) (goodInfo, None) (banner96, None).

Definition tooOldIdDenied : Pool :=
  pool None ("", Some deniedErr) (goodInfo, None) (banner96, None).

(** A driver that reaches the same pool whatever the connection string. *)
Definition reach (p : Pool) (_ : Context) (_ : string) : Pool + error := inl p.

(** A driver that reaches nothing. *)
Definition refuse (err : error) (_ : Context) (_ : string) : Pool + error :=
  inr err.

Definition refusedErr : error := DriverError "connection refused".
Definition exhaustedErr : error := DriverError "pool exhausted".

(** A store that answers everything but leases no connection. *)
Definition noLease : Pool :=
  {| pingReply := fun _ => None;
     acquireReply := fun _ => inr exhaustedErr;
     poolString := answers (systemId, None) (banner13, None);
     poolInfo := fun _ _ => (goodInfo, None) |}.

(** A store whose banner is a single word. *)
Definition oneWord : Pool :=
  pool None (systemId, None) (goodInfo, None) ("PostgreSQL", None).

(** A store whose version query fails. *)
Definition versionDown : Pool :=
  pool None (systemId, None) (goodInfo, None) ("", Some timeoutErr).

(** A console client whose sync reports the providers it could not
    sync: those whose name is empty. *)
Definition createClient (_ : Context) (config : string) (_ : bool)
    (_ : option unit) (_ : string) : unit + error :=
  if String.eqb config "" then inr (DriverError "no config file") else inl tt.

Definition syncProviders (_ : unit) (_ : Context) (providers : list string)
    : nat * list string :=
  (length providers,
   map (fun _ => "empty provider name")
     (filter (fun p => String.eqb p "") providers)).

Definition hasErrors (diags : list string) : bool :=
  match diags with
  | [] => false
  | _ => true
  end.

End Fake.

(** ** Notions the properties are stated with *)

(** A computation is [Logged] when, from any log, it returns what it
    returns from the empty log and appends the same events. *)
Definition Logged {A : Type} (m : IO A) : Prop :=
  forall log, m log = (result m, log ++ trace m).

(** A byte that is not white space and does not begin the encoding of a
    white-space rune. *)
Definition wordByte (c : ascii) : bool :=
  let n := N_of_ascii c in
  (negb (Strings.asciiSpace c)
   && negb ((n =? 194) || (n =? 225) || (n =? 226) || (n =? 227)))%N.

Fixpoint wordBytes (s : string) : bool :=
  match s with
  | EmptyString => true
  | String c rest => wordByte c && wordBytes rest
  end.

(** A word: a non-empty string of such bytes, for instance any run of
    printable ASCII characters without a blank. *)
Definition word (s : string) : bool :=
  match s with
  | EmptyString => false
  | _ => wordBytes s
  end.

(** The numeric tuple ordering in the spec's words: at the first position
    where the tuples differ, a missing component counting as zero, the
    left one is smaller. *)
Definition tupleLt (a b : list Z) : Prop :=
  exists i : nat,
    (forall j : nat, (j < i)%nat -> nth j a 0%Z = nth j b 0%Z)
    /\ (nth i a 0%Z < nth i b 0%Z)%Z.

(** Equal as tuples: the same component everywhere, zero where missing. *)
Definition tupleEq (a b : list Z) : Prop :=
  forall i : nat, nth i a 0%Z = nth i b 0%Z.

(** The context the ping runs under. *)
Definition pingContext (ctx : Context) : Context :=
  WithTimeout ctx (Second * 10)%Z.

(** What the gate does about deadlines: the ping and the cancellation
    carry the child context with the ten-second timeout, every other
    operation that takes a context carries the caller's own. *)
Definition ranUnder (ctx : Context) (ev : Event) : Prop :=
  match ev with
  | EvPing c | EvCancel c => c = WithTimeout ctx 10000000000%Z
  | EvConnect c _ | EvAcquire c | EvQuery c _ => c = ctx
  | EvRelease => True
  end.

(** An operation that sends a statement to the store or leases a
    connection for one. *)
Definition isStoreQuery (ev : Event) : bool :=
  match ev with
  | EvQuery _ _ | EvAcquire _ | EvRelease => true
  | EvConnect _ _ | EvPing _ | EvCancel _ => false
  end.

(** A string of ASCII white space only; the empty string is one. *)
Fixpoint allBlank (s : string) : bool :=
  match s with
  | EmptyString => true
  | String c rest => Strings.asciiSpace c && allBlank rest
  end.

(** The value [GetDatabaseInfo] returns in place of a status it could not
    read. *)
Definition unknownInfo : model.DatabaseInfo :=
  {| model.Version := "unknown"; model.Uptime := 0%Z;
     model.FullVersion := "unknown" |}.

(** What a pass leaves cached as status, given what the status query
    returned. *)
Definition cachedInfo (reply : model.DatabaseInfo * option error)
    : model.DatabaseInfo :=
  match snd reply with
  | Some _ => unknownInfo
  | None => fst reply
  end.

(** ** The [provider sync] command *)

Module provider.

Definition syncShort : string :=
  "Download the providers specified in config and re-create their database schema".

Section Sync.

(** The console client, what a sync returns and its diagnostics belong to
    other packages; the command uses them through these operations
    only. *)
Variables Client SyncResult Diagnostics ConfigMutator : Type.

(** [console.CreateClient]. *)
Variable CreateClient :
  Context -> string -> bool -> option ConfigMutator -> string -> Client + error.

(** The method [SyncProviders] of the client. *)
Variable SyncProviders :
  Client -> Context -> list string -> SyncResult * Diagnostics.

(** The method [HasErrors] of the diagnostics. *)
Variable HasErrors : Diagnostics -> bool.

(** [utils.GetConfigFile()] and [utils.InstanceId]. *)
Variables configFile instanceId : string.

(** The error of the command: the client's, or the diagnostics wrapped
    by ["failed to sync providers %w"]. *)
Inductive SyncError : Type :=
| ErrClient (err : error)
| ErrFailedToSync (diags : Diagnostics).

(** What the command does to its collaborators. *)
Inductive SyncEvent : Type :=
| SyCreateClient (ctx : Context) (config : string) (instance : string)
| SySyncProviders (ctx : Context) (providers : list string)
| SyCaptureDiagnostics (diags : Diagnostics) (tags : list (string * string)).

(** The [RunE] function of the command: its error and what it did. *)
Definition RunE (ctx : Context) (args : list string)
    : option SyncError * list SyncEvent :=
  match CreateClient ctx configFile false None instanceId with
  | inr err => (Some (ErrClient err), [SyCreateClient ctx configFile instanceId])
  | inl c =>
      let '(_, diags) := SyncProviders c ctx args in
      let log :=
        [SyCreateClient ctx configFile instanceId;
         SySyncProviders ctx args;
         SyCaptureDiagnostics diags [("command", "provider_sync")]] in
      if HasErrors diags
      then (Some (ErrFailedToSync diags), log)
      else (None, log)
  end.

(** The fields of the [cobra.Command] the constructor fills in. *)
Record Command : Type := mkCommand {
  Use : string;
  Short : string;
  Long : string;
  Run : Context -> list string -> option SyncError * list SyncEvent
}.

Definition newCmdProviderSync : Command :=
  {| Use := "sync [providers,...]";
     Short := syncShort;
     Long := syncShort;
     Run := RunE |}.

End Sync.

End provider.

(** * Properties *)

(** ** The log only grows, and results do not depend on it *)

Lemma Logged_ret {A : Type} (a : A) : Logged (ret a).
Proof.
  intros log. unfold ret, result, trace. simpl. now rewrite app_nil_r.
Qed.

Lemma Logged_emit (ev : Event) : Logged (emit ev).
Proof.
  intros log. reflexivity.
Qed.

Lemma Logged_bind {A B : Type} (m : IO A) (k : A -> IO B) :
  Logged m -> (forall a, Logged (k a)) -> Logged (bind m k).
Proof.
  intros Hm Hk log.
  unfold result, trace, bind.
  rewrite (Hm log), (Hm []). simpl.
  rewrite (Hk (result m) (log ++ trace m)), (Hk (result m) (trace m)).
  simpl. now rewrite app_assoc.
Qed.

Create HintDb logged.
#[export] Hint Resolve Logged_ret Logged_emit : logged.

Ltac logged :=
  repeat first
    [ solve [ auto with logged ]
    | progress cbv zeta
    | apply Logged_bind; [ | intros ]
    | match goal with
      | |- Logged (match ?x with _ => _ end) => destruct x
      | |- Logged (if ?x then _ else _) => destruct x
      end ].

Lemma result_bind {A B : Type} (m : IO A) (k : A -> IO B) :
  Logged m -> (forall a, Logged (k a)) ->
  result (bind m k) = result (k (result m)).
Proof.
  intros Hm Hk. unfold result at 1. unfold bind.
  rewrite (Hm []). simpl. now rewrite (Hk (result m) (trace m)).
Qed.

Lemma trace_bind {A B : Type} (m : IO A) (k : A -> IO B) :
  Logged m -> (forall a, Logged (k a)) ->
  trace (bind m k) = trace m ++ trace (k (result m)).
Proof.
  intros Hm Hk. unfold trace at 1. unfold bind.
  rewrite (Hm []). simpl. now rewrite (Hk (result m) (trace m)).
Qed.

Section LoggedGate.

Import postgres.

Context {Q : Type} `{Querier Q}.

Lemma Logged_GetString ctx (q : Q) sql : Logged (GetString ctx q sql).
Proof. unfold GetString. logged. Qed.

Lemma Logged_GetInfo ctx (q : Q) sql : Logged (GetInfo ctx q sql).
Proof. unfold GetInfo. logged. Qed.

Hint Resolve Logged_GetString Logged_GetInfo : logged.

Lemma Logged_GetDatabaseId ctx (q : Q) : Logged (GetDatabaseId ctx q).
Proof. unfold GetDatabaseId. logged. Qed.

Lemma Logged_GetDatabaseInfo ctx (q : Q) : Logged (GetDatabaseInfo ctx q).
Proof. unfold GetDatabaseInfo. logged. Qed.

Lemma Logged_runningPostgresVersion ctx (q : Q) :
  Logged (runningPostgresVersion ctx q).
Proof. unfold runningPostgresVersion. logged. Qed.

Hint Resolve Logged_runningPostgresVersion : logged.

Lemma Logged_doValidatePostgresVersion ctx (q : Q) want :
  Logged (doValidatePostgresVersion ctx q want).
Proof. unfold doValidatePostgresVersion. logged. Qed.

End LoggedGate.

#[export] Hint Resolve Logged_GetString Logged_GetInfo Logged_GetDatabaseId
  Logged_GetDatabaseInfo Logged_runningPostgresVersion
  Logged_doValidatePostgresVersion : logged.

Lemma Logged_ValidatePostgresConnection ctx pool :
  Logged (postgres.ValidatePostgresConnection ctx pool).
Proof. unfold postgres.ValidatePostgresConnection. logged. Qed.

Lemma Logged_ValidatePostgresVersion ctx pool :
  Logged (postgres.ValidatePostgresVersion ctx pool).
Proof. unfold postgres.ValidatePostgresVersion. logged. Qed.

#[export] Hint Resolve Logged_ValidatePostgresConnection
  Logged_ValidatePostgresVersion : logged.

Lemma Logged_Validate connect e ctx :
  Logged (postgres.Validate connect e ctx).
Proof. unfold postgres.Validate, postgres.Connect. logged. Qed.

(** ** White-space fields *)

Lemma spaceWidth_wordByte c s :
  wordByte c = true -> Strings.spaceWidth (String c s) = 0.
Proof.
  unfold wordByte. intros Hc.
  apply andb_true_iff in Hc as [Hsp Hlead].
  apply negb_true_iff in Hsp. apply negb_true_iff in Hlead.
  repeat (apply orb_false_iff in Hlead as [Hlead ?]).
  unfold Strings.spaceWidth. rewrite Hsp.
  destruct s as [|c1 [|c2 r]]; try reflexivity;
    unfold Strings.space2, Strings.space3;
    repeat match goal with
           | E : (_ =? _)%N = false |- _ => rewrite E; clear E
           end; reflexivity.
Qed.

Lemma scan_wordBytes t r :
  wordBytes t = true ->
  Strings.scan (t ++ r) 0
  = ((t ++ fst (Strings.scan r 0))%string, snd (Strings.scan r 0)).
Proof.
  induction t as [|c t IH]; intros Ht.
  - simpl. now destruct (Strings.scan r 0).
  - simpl in Ht. apply andb_true_iff in Ht as [Hc Ht].
    change ((String c t ++ r)%string) with (String c (t ++ r)).
    unfold Strings.scan; fold Strings.scan.
    rewrite (spaceWidth_wordByte c (t ++ r)%string Hc).
    now rewrite (IH Ht).
Qed.

Lemma scan_asciiSpace sp r :
  Strings.asciiSpace sp = true ->
  Strings.scan (String sp r) 0 = (EmptyString, Strings.Fields r).
Proof.
  intros Hsp. unfold Strings.scan; fold Strings.scan.
  unfold Strings.spaceWidth. rewrite Hsp.
  unfold Strings.Fields. now destruct (Strings.scan r 0).
Qed.

Lemma append_empty_r (s : string) : (s ++ "")%string = s.
Proof. induction s; simpl; congruence. Qed.

Lemma Forall_consField (P : string -> Prop) f fs :
  (f <> "" -> P f) -> Forall P fs -> Forall P (Strings.consField f fs).
Proof.
  intros Hf Hfs. destruct f as [|c f]; [exact Hfs|].
  simpl. constructor; [apply Hf; discriminate | exact Hfs].
Qed.

Lemma scan_fields_nonempty s :
  forall skip, Forall (fun f => f <> "") (snd (Strings.scan s skip)).
Proof.
  induction s as [|c s IH]; intros skip; [constructor|].
  unfold Strings.scan; fold Strings.scan.
  destruct skip as [|k].
  - destruct (Strings.spaceWidth (String c s)) as [|w].
    + specialize (IH 0). destruct (Strings.scan s 0) as [f fs]. exact IH.
    + specialize (IH w). destruct (Strings.scan s w) as [f fs].
      cbn [snd] in *. apply Forall_consField; auto.
  - specialize (IH k). destruct (Strings.scan s k) as [f fs].
    cbn [snd] in *. apply Forall_consField; auto.
Qed.

(** No field is empty. *)
Lemma Fields_nonempty s : Forall (fun f => f <> "") (Strings.Fields s).
Proof.
  unfold Strings.Fields. pose proof (scan_fields_nonempty s 0) as Hs.
  destruct (Strings.scan s 0) as [f fs]. apply Forall_consField; auto.
Qed.

(** A word followed by a blank is the first field, whatever follows. *)
Lemma Fields_word_blank t sp r :
  word t = true -> Strings.asciiSpace sp = true ->
  Strings.Fields (t ++ String sp r) = t :: Strings.Fields r.
Proof.
  intros Ht Hsp.
  assert (Hb : wordBytes t = true) by (destruct t; [discriminate | exact Ht]).
  unfold Strings.Fields at 1.
  rewrite (scan_wordBytes t _ Hb), (scan_asciiSpace sp r Hsp). simpl.
  rewrite append_empty_r. destruct t; [discriminate | reflexivity].
Qed.

Lemma Fields_word t : word t = true -> Strings.Fields t = [t].
Proof.
  intros Ht.
  assert (Hb : wordBytes t = true) by (destruct t; [discriminate | exact Ht]).
  unfold Strings.Fields.
  rewrite <- (append_empty_r t) at 1.
  rewrite (scan_wordBytes t _ Hb). simpl.
  rewrite append_empty_r. destruct t; [discriminate | reflexivity].
Qed.

(** ** Occurrences of the separator *)

Lemma HasPrefix_empty s : Strings.HasPrefix s "" = true.
Proof. now destruct s. Qed.

Lemma HasPrefix_slash s :
  Strings.HasPrefix s "/" = true <-> exists b, s = String "/" b.
Proof.
  destruct s as [|c s].
  - simpl. split; [discriminate | intros [b Hb]; discriminate].
  - change (Strings.HasPrefix (String c s) "/")
      with (Ascii.eqb "/" c && Strings.HasPrefix s "").
    rewrite HasPrefix_empty, andb_true_r. split.
    + intros Hc. apply Ascii.eqb_eq in Hc. subst c. now exists s.
    + intros [b Hb]. injection Hb as -> _. apply Ascii.eqb_refl.
Qed.

Lemma Contains_slash s :
  Strings.Contains s "/" = true
  <-> exists a b, s = (a ++ String "/" b)%string.
Proof.
  induction s as [|c s IH].
  - simpl. split; [discriminate|].
    intros [a [b Hab]]. destruct a; discriminate.
  - change (Strings.Contains (String c s) "/")
      with (Strings.HasPrefix (String c s) "/" || Strings.Contains s "/").
    rewrite orb_true_iff, HasPrefix_slash, IH. split.
    + intros [[b Hb] | [a [b Hab]]].
      * exists EmptyString, b. exact Hb.
      * exists (String c a), b. simpl. now rewrite Hab.
    + intros [a [b Hab]]. destruct a as [|c' a]; simpl in Hab.
      * left. now exists b.
      * right. injection Hab as _ Hs. now exists a, b.
Qed.

(** ** The ordering of versions *)

Section TupleOrder.

Local Open Scope Z_scope.

Lemma nth_hd (l : list Z) : nth 0 l 0 = hd 0 l.
Proof. now destruct l. Qed.

Lemma nth_tl (j : nat) (l : list Z) : nth (S j) l 0 = nth j (tl l) 0.
Proof. destruct l; [now destruct j | reflexivity]. Qed.

(** The ordering read off the heads and the tails. *)
Lemma tupleLt_step (a b : list Z) :
  tupleLt a b
  <-> hd 0 a < hd 0 b \/ (hd 0 a = hd 0 b /\ tupleLt (tl a) (tl b)).
Proof.
  unfold tupleLt. split.
  - intros [[|i] [Hpre Hlt]].
    + left. now rewrite <- !nth_hd.
    + right. split.
      * rewrite <- !nth_hd. apply Hpre. lia.
      * exists i. split.
        -- intros j Hj. rewrite <- !nth_tl. apply Hpre. lia.
        -- now rewrite <- !nth_tl.
  - intros [Hlt | [Heq [i [Hpre Hlt]]]].
    + exists 0%nat. split; [intros j Hj; lia | now rewrite !nth_hd].
    + exists (S i). split.
      * intros [|j] Hj.
        -- now rewrite !nth_hd.
        -- rewrite !nth_tl. apply Hpre. lia.
      * now rewrite !nth_tl.
Qed.

Lemma tupleEq_step (a b : list Z) :
  tupleEq a b <-> hd 0 a = hd 0 b /\ tupleEq (tl a) (tl b).
Proof.
  unfold tupleEq. split.
  - intros Hall. split.
    + rewrite <- !nth_hd. apply Hall.
    + intros i. rewrite <- !nth_tl. apply Hall.
  - intros [Hhd Htl] [|i].
    + now rewrite !nth_hd.
    + rewrite !nth_tl. apply Htl.
Qed.

Lemma tupleLt_nil : ~ tupleLt [] [].
Proof. intros [i [_ Hlt]]. destruct i; simpl in Hlt; lia. Qed.

Lemma tupleEq_nil : tupleEq [] [].
Proof. intros i. reflexivity. Qed.

Lemma compareZeros_Lt (b : list Z) :
  version.compareZeros b = Lt <-> tupleLt [] b.
Proof.
  induction b as [|y b IH].
  - simpl. split; [discriminate | intros H; now apply tupleLt_nil in H].
  - rewrite tupleLt_step. cbn [hd tl version.compareZeros].
    destruct (Z.compare_spec 0 y) as [Heq | Hlt | Hgt].
    + rewrite IH. split; [intros H; right; now split | ].
      intros [H | [_ H]]; [lia | exact H].
    + split; [intros _; now left | reflexivity].
    + split; [discriminate | intros [H | [H _]]; lia].
Qed.

Lemma compareZeros_Eq (b : list Z) :
  version.compareZeros b = Eq <-> tupleEq [] b.
Proof.
  induction b as [|y b IH].
  - simpl. split; [intros _; apply tupleEq_nil | reflexivity].
  - rewrite tupleEq_step. cbn [hd tl version.compareZeros].
    destruct (Z.compare_spec 0 y) as [Heq | Hlt | Hgt].
    + rewrite IH. split; [intros H; now split | now intros [_ H]].
    + split; [discriminate | intros [H _]; lia].
    + split; [discriminate | intros [H _]; lia].
Qed.

(** [Compare] answers "less" exactly on the tuple ordering. *)
Lemma Compare_Lt (a b : list Z) :
  version.Compare a b = Lt <-> tupleLt a b.
Proof.
  revert b. induction a as [|x a IH]; intros b.
  - apply compareZeros_Lt.
  - rewrite tupleLt_step. destruct b as [|y b]; cbn [hd tl version.Compare].
    + destruct (Z.compare_spec x 0) as [Heq | Hlt | Hgt].
      * rewrite IH. split; [intros H; right; now split | ].
        intros [H | [_ H]]; [lia | exact H].
      * split; [intros _; now left | reflexivity].
      * split; [discriminate | intros [H | [H _]]; lia].
    + destruct (Z.compare_spec x y) as [Heq | Hlt | Hgt].
      * rewrite IH. split; [intros H; right; now split | ].
        intros [H | [_ H]]; [lia | exact H].
      * split; [intros _; now left | reflexivity].
      * split; [discriminate | intros [H | [H _]]; lia].
Qed.

(** [Compare] answers "equal" exactly on tuples equal up to trailing
    zeros. *)
Lemma Compare_Eq (a b : list Z) :
  version.Compare a b = Eq <-> tupleEq a b.
Proof.
  revert b. induction a as [|x a IH]; intros b.
  - apply compareZeros_Eq.
  - rewrite tupleEq_step. destruct b as [|y b]; cbn [hd tl version.Compare].
    + destruct (Z.compare_spec x 0) as [Heq | Hlt | Hgt].
      * rewrite IH. split; [intros H; now split | now intros [_ H]].
      * split; [discriminate | intros [H _]; lia].
      * split; [discriminate | intros [H _]; lia].
    + destruct (Z.compare_spec x y) as [Heq | Hlt | Hgt].
      * rewrite IH. split; [intros H; now split | now intros [_ H]].
      * split; [discriminate | intros [H _]; lia].
      * split; [discriminate | intros [H _]; lia].
Qed.

Lemma Compare_refl (v : list Z) : version.Compare v v = Eq.
Proof. apply Compare_Eq. intros i. reflexivity. Qed.

Lemma LessThan_irrefl (v : list Z) : version.LessThan v v = false.
Proof. unfold version.LessThan. now rewrite Compare_refl. Qed.

Lemma LessThan_tupleLt (a b : list Z) :
  version.LessThan a b = true <-> tupleLt a b.
Proof.
  rewrite <- Compare_Lt. unfold version.LessThan.
  destruct (version.Compare a b); split; congruence.
Qed.

End TupleOrder.

Lemma MinPostgresVersion_parses :
  version.NewVersion "10.0" = inl postgres.MinPostgresVersion.
Proof. reflexivity. Qed.

Lemma MinPostgresVersion_value :
  postgres.MinPostgresVersion = [10%Z; 0%Z].
Proof. reflexivity. Qed.

(** ** One validation pass, step by step *)

Section Pass.

Import postgres.

Variable connect : Context -> string -> Pool + error.

Lemma ValidatePostgresConnection_run ctx pool log :
  ValidatePostgresConnection ctx pool log
  = (pingReply pool (pingContext ctx),
     log ++ [EvPing (pingContext ctx); EvCancel (pingContext ctx)]).
Proof.
  unfold ValidatePostgresConnection, bind, emit, ret, pingContext. simpl.
  now rewrite <- app_assoc.
Qed.

Lemma GetDatabaseId_run {Q : Type} `{Querier Q} ctx (q : Q) log :
  GetDatabaseId ctx q log
  = (scanString q ctx sqlDatabaseId, log ++ [EvQuery ctx sqlDatabaseId]).
Proof.
  unfold GetDatabaseId, GetString, bind, emit, ret. simpl.
  now destruct (scanString q ctx sqlDatabaseId).
Qed.

Lemma GetDatabaseInfo_trace {Q : Type} `{Querier Q} ctx (q : Q) :
  trace (GetDatabaseInfo ctx q) = [EvQuery ctx sqlDatabaseInfo].
Proof.
  unfold trace, GetDatabaseInfo, GetInfo, bind, emit, ret. simpl.
  destruct (scanInfo q ctx sqlDatabaseInfo) as [i [err|]]; reflexivity.
Qed.

(** A pass that fails to connect stops there. *)
Lemma Validate_connect_failure e ctx err log :
  connect ctx (dsn e) = inr err ->
  Validate connect e ctx log
  = ((e, (false, Some err)), log ++ [EvConnect ctx (dsn e)]).
Proof.
  intros Hconn. unfold Validate, Connect, bind, emit, ret. simpl.
  now rewrite Hconn.
Qed.

(** A pass whose ping fails stops after the ping. *)
Lemma Validate_ping_failure e ctx pool err log :
  connect ctx (dsn e) = inl pool ->
  pingReply pool (pingContext ctx) = Some err ->
  Validate connect e ctx log
  = ((e, (false, Some err)),
     log ++ [EvConnect ctx (dsn e);
             EvPing (pingContext ctx); EvCancel (pingContext ctx)]).
Proof.
  intros Hconn Hping. unfold Validate, Connect.
  unfold bind at 1. unfold bind at 1. unfold emit at 1. unfold ret at 1.
  rewrite Hconn. unfold bind at 1.
  rewrite ValidatePostgresConnection_run, Hping. unfold ret.
  now rewrite <- app_assoc.
Qed.

(** A pass on a store that answers the ping runs all three remaining
    steps; its error is the version check's, or else the identity
    query's. *)
Lemma Validate_reachable e ctx pool log :
  connect ctx (dsn e) = inl pool ->
  pingReply pool (pingContext ctx) = None ->
  Validate connect e ctx log
  = (({| dsn := dsn e;
         dbId := fst (poolString pool ctx sqlDatabaseId);
         info := result (GetDatabaseInfo ctx pool) |},
      (true,
       match result (ValidatePostgresVersion ctx pool) with
       | Some err => Some err
       | None => snd (poolString pool ctx sqlDatabaseId)
       end)),
     log ++ [EvConnect ctx (dsn e);
             EvPing (pingContext ctx); EvCancel (pingContext ctx);
             EvQuery ctx sqlDatabaseId; EvQuery ctx sqlDatabaseInfo]
         ++ trace (ValidatePostgresVersion ctx pool)).
Proof.
  intros Hconn Hping. unfold Validate, Connect.
  unfold bind at 1. unfold bind at 1. unfold emit at 1. unfold ret at 1.
  rewrite Hconn. unfold bind at 1.
  rewrite ValidatePostgresConnection_run, Hping.
  unfold bind at 1. rewrite GetDatabaseId_run.
  change (scanString pool ctx sqlDatabaseId)
    with (poolString pool ctx sqlDatabaseId).
  destruct (poolString pool ctx sqlDatabaseId) as [id idErr].
  unfold bind at 1. rewrite (Logged_GetDatabaseInfo ctx pool).
  rewrite GetDatabaseInfo_trace.
  unfold bind at 1. rewrite (Logged_ValidatePostgresVersion ctx pool).
  cbn [fst snd dsn dbId info].
  destruct (result (ValidatePostgresVersion ctx pool)); unfold ret;
    repeat rewrite <- app_assoc; reflexivity.
Qed.

(** The version check on a leased connection. *)
Lemma ValidatePostgresVersion_leased ctx pool conn :
  acquireReply pool ctx = inl conn ->
  result (ValidatePostgresVersion ctx pool)
  = result (doValidatePostgresVersion ctx conn MinPostgresVersion)
  /\ trace (ValidatePostgresVersion ctx pool)
     = [EvAcquire ctx; EvQuery ctx sqlVersion; EvRelease].
Proof.
  intros Hacq.
  unfold result, trace, ValidatePostgresVersion.
  unfold bind at 1 3. unfold emit at 1 2. rewrite Hacq.
  unfold bind at 1 3.
  rewrite (Logged_doValidatePostgresVersion ctx conn MinPostgresVersion).
  unfold bind, emit, ret. cbn [fst snd]. split; [reflexivity|].
  unfold trace, doValidatePostgresVersion, runningPostgresVersion, GetString,
    bind, emit, ret. simpl.
  destruct (connString conn ctx sqlVersion) as [banner [err|]];
    [reflexivity|].
  destruct (length (Strings.Fields banner) <? 2)%nat; [reflexivity|].
  destruct (version.NewVersion _) as [got|err]; [|reflexivity].
  destruct (version.LessThan got MinPostgresVersion); reflexivity.
Qed.

End Pass.

(** ** The readiness gate *)

Section GateProperties.

Import postgres.

Variable connect : Context -> string -> Pool + error.

(** C1 (as amended): when the store answers the ping, the identity query
    returns an error and the version check passes, the pass reports
    connected = true and returns that very identity error as its error,
    after the status and version steps have run; the identifier stored is
    what the failed query left in its destination, so [Identifier]
    reports present = false when that is the empty string. *)
Theorem Validate_returns_identity_error
    (e : Executor) (ctx : Context) (pool : Pool)
    (id : string) (idErr : error) (log : list Event) :
  connect ctx (dsn e) = inl pool ->
  pingReply pool (pingContext ctx) = None ->
  poolString pool ctx sqlDatabaseId = (id, Some idErr) ->
  result (ValidatePostgresVersion ctx pool) = None ->
  let out := Validate connect e ctx log in
  snd (fst out) = (true, Some idErr)
  /\ dbId (fst (fst out)) = id
  /\ (id = "" ->
      forall ctx' log', Identifier (fst (fst out)) ctx' log' = (("", false), log'))
  /\ snd out
     = log ++ [EvConnect ctx (dsn e);
               EvPing (pingContext ctx); EvCancel (pingContext ctx);
               EvQuery ctx sqlDatabaseId; EvQuery ctx sqlDatabaseInfo]
           ++ trace (ValidatePostgresVersion ctx pool).
Proof.
  intros Hconn Hping Hid Hver out. subst out.
  rewrite (Validate_reachable connect e ctx pool log Hconn Hping).
  rewrite Hid, Hver. cbn [fst snd dbId].
  repeat split.
  intros -> ctx' log'. reflexivity.
Qed.

(** C2: when the ping fails the pass returns connected = false with the
    ping's error and stops: the log gains the connection, the ping and the
    cancellation only, so no identity, status or version query and no
    lease is attempted, and the executor is left as it was; one that had
    no identity and status cached still has none. *)
Theorem Validate_unreachable_short_circuits
    (e : Executor) (ctx : Context) (pool : Pool)
    (err : error) (log : list Event) :
  connect ctx (dsn e) = inl pool ->
  pingReply pool (pingContext ctx) = Some err ->
  let out := Validate connect e ctx log in
  snd (fst out) = (false, Some err)
  /\ snd out
     = log ++ [EvConnect ctx (dsn e);
               EvPing (pingContext ctx); EvCancel (pingContext ctx)]
  /\ forallb (fun ev => negb (isStoreQuery ev))
       (trace (Validate connect e ctx)) = true
  /\ fst (fst out) = e
  /\ (dbId e = "" -> info e = model.zero ->
      dbId (fst (fst out)) = "" /\ info (fst (fst out)) = model.zero).
Proof.
  intros Hconn Hping out. subst out. unfold trace.
  rewrite !(Validate_ping_failure connect e ctx pool err _ Hconn Hping).
  cbn [fst snd]. repeat split; auto.
Qed.

(** C9: on a store that answers the ping, when the version check fails
    the pass returns the version check's error whatever the identity
    query returned, error or not; the identity query's error is what the
    pass returns only when the version check returns none. *)
Theorem Validate_version_error_first
    (e : Executor) (ctx : Context) (pool : Pool)
    (id : string) (idErr : option error) :
  connect ctx (dsn e) = inl pool ->
  pingReply pool (pingContext ctx) = None ->
  poolString pool ctx sqlDatabaseId = (id, idErr) ->
  let out := result (Validate connect e ctx) in
  (forall verr, result (ValidatePostgresVersion ctx pool) = Some verr ->
     snd out = (true, Some verr))
  /\ (result (ValidatePostgresVersion ctx pool) = None ->
     snd out = (true, idErr))
  /\ fst out = {| dsn := dsn e; dbId := id;
                  info := result (GetDatabaseInfo ctx pool) |}.
Proof.
  intros Hconn Hping Hid out. subst out.
  change (result (Validate connect e ctx))
    with (fst (Validate connect e ctx [])).
  rewrite (Validate_reachable connect e ctx pool [] Hconn Hping).
  rewrite Hid. cbn [fst snd].
  repeat split.
  - intros verr Hver. now rewrite Hver.
  - intros Hver. now rewrite Hver.
Qed.

(** C10: [Identifier] looks at the cached identifier only: it answers
    [("", false)] when that is the empty string, as it is on a new
    executor and after a pass whose identity query succeeded with an
    empty string, and [(dbId, true)] otherwise; it adds nothing to the
    log. *)
Theorem Identifier_presence
    (e : Executor) (ctx : Context) (log : list Event) :
  (dbId e = "" -> Identifier e ctx log = (("", false), log))
  /\ (dbId e <> "" -> Identifier e ctx log = ((dbId e, true), log))
  /\ (forall d, Identifier (New d) ctx log = (("", false), log))
  /\ (forall vctx pool,
        connect vctx (dsn e) = inl pool ->
        pingReply pool (pingContext vctx) = None ->
        poolString pool vctx sqlDatabaseId = ("", None) ->
        Identifier (fst (result (Validate connect e vctx))) ctx log
        = (("", false), log)).
Proof.
  unfold Identifier. repeat split.
  - intros ->. reflexivity.
  - intros Hne. apply String.eqb_neq in Hne. now rewrite Hne.
  - intros vctx pool Hconn Hping Hid. unfold result.
    rewrite (Validate_reachable connect e vctx pool [] Hconn Hping).
    now rewrite Hid.
Qed.

End GateProperties.

Section VersionCheck.

Import postgres.

Context {Q : Type} `{Querier Q}.

Lemma runningPostgresVersion_run ctx (q : Q) banner log :
  scanString q ctx sqlVersion = (banner, None) ->
  runningPostgresVersion ctx q log
  = (match Strings.Fields banner with
     | _ :: token :: _ => version.NewVersion token
     | _ => inr (ErrFailedToParseVersion banner)
     end,
     log ++ [EvQuery ctx sqlVersion]).
Proof.
  intros Hq. unfold runningPostgresVersion, GetString, bind, emit, ret.
  rewrite Hq. cbv zeta.
  destruct (Strings.Fields banner) as [|f0 [|f1 rest]]; reflexivity.
Qed.

(** C4 (as amended): a banner with fewer than two white-space-delimited
    fields is rejected with the parse failure naming the banner;
    otherwise the version is parsed from the second field, and neither
    the first field nor what follows the second plays any part: for a
    banner made of a word, a blank, a second word, a blank and anything
    at all, the result is the parse of the second word. *)
Theorem runningPostgresVersion_second_field
    (ctx : Context) (q : Q) (banner : string) (log : list Event) :
  scanString q ctx sqlVersion = (banner, None) ->
  runningPostgresVersion ctx q log
  = (match Strings.Fields banner with
     | _ :: token :: _ => version.NewVersion token
     | _ => inr (ErrFailedToParseVersion banner)
     end,
     log ++ [EvQuery ctx sqlVersion])
  /\ ((length (Strings.Fields banner) < 2)%nat ->
      result (runningPostgresVersion ctx q)
      = inr (ErrFailedToParseVersion banner))
  /\ (forall first token sp1 sp2 rest,
        word first = true -> word token = true ->
        Strings.asciiSpace sp1 = true -> Strings.asciiSpace sp2 = true ->
        banner = (first ++ String sp1 (token ++ String sp2 rest))%string ->
        result (runningPostgresVersion ctx q) = version.NewVersion token).
Proof.
  intros Hq. split; [now apply runningPostgresVersion_run|].
  unfold result. rewrite (runningPostgresVersion_run ctx q banner [] Hq).
  cbn [fst]. split.
  - intros Hlen.
    destruct (Strings.Fields banner) as [|f0 [|f1 rest]];
      try reflexivity. simpl in Hlen. lia.
  - intros first token sp1 sp2 rest Hfirst Htoken Hsp1 Hsp2 ->.
    rewrite (Fields_word_blank first sp1 _ Hfirst Hsp1).
    now rewrite (Fields_word_blank token sp2 _ Htoken Hsp2).
Qed.

(** C6: when the status query returns an error, whatever it left in its
    destination, [GetDatabaseInfo] returns exactly the value with version
    "unknown", uptime 0 and full version "unknown"; it has no error
    result at all, and it sent the one status query. *)
Theorem GetDatabaseInfo_sentinel
    (ctx : Context) (q : Q) (partial : model.DatabaseInfo) (err : error)
    (log : list Event) :
  scanInfo q ctx sqlDatabaseInfo = (partial, Some err) ->
  GetDatabaseInfo ctx q log
  = ({| model.Version := "unknown"; model.Uptime := 0%Z;
        model.FullVersion := "unknown" |},
     log ++ [EvQuery ctx sqlDatabaseInfo]).
Proof.
  intros Hq. unfold GetDatabaseInfo, GetInfo, bind, emit, ret.
  now rewrite Hq.
Qed.

(** C7: the version library's comparison is the numeric tuple ordering
    (less exactly when, at the first position where the tuples differ, a
    missing component counting as zero, the left one is smaller; equal
    exactly when they differ nowhere), a version is at least itself, and
    the check of a store against the very version it runs returns no
    error. *)
Theorem doValidatePostgresVersion_reflexive
    (ctx : Context) (q : Q) (v : version.Version) :
  result (runningPostgresVersion ctx q) = inl v ->
  result (doValidatePostgresVersion ctx q v) = None
  /\ version.isAtLeast v v = true
  /\ (forall a b, version.LessThan a b = true <-> tupleLt a b)
  /\ (forall a b, version.Compare a b = Eq <-> tupleEq a b).
Proof.
  intros Hrun. split; [|split; [|split]].
  - unfold doValidatePostgresVersion.
    rewrite result_bind; [|auto with logged|intros; logged].
    rewrite Hrun. now rewrite LessThan_irrefl.
  - unfold version.isAtLeast. now rewrite LessThan_irrefl.
  - apply LessThan_tupleLt.
  - apply Compare_Eq.
Qed.

End VersionCheck.

Section GateOutcomes.

Import postgres.

Variable connect : Context -> string -> Pool + error.

(** C3: when the store answers the ping and the version it runs is
    strictly below the minimum 10.0, the pass reports connected = true
    together with the unsupported-version error, an outcome no
    unreachable store produces; the identity and the status were queried
    and stored before the version was asked for. *)
Theorem Validate_incompatible_version
    (e : Executor) (ctx : Context) (pool : Pool) (conn : Conn)
    (got : version.Version) (log : list Event) :
  connect ctx (dsn e) = inl pool ->
  pingReply pool (pingContext ctx) = None ->
  acquireReply pool ctx = inl conn ->
  result (runningPostgresVersion ctx conn) = inl got ->
  tupleLt got [10%Z; 0%Z] ->
  let out := Validate connect e ctx log in
  snd (fst out) = (true, Some (ErrUnsupportedVersion got MinPostgresVersion))
  /\ (forall err, snd (fst out) <> (false, err))
  /\ fst (fst out)
     = {| dsn := dsn e;
          dbId := fst (poolString pool ctx sqlDatabaseId);
          info := result (GetDatabaseInfo ctx pool) |}
  /\ snd out
     = log ++ [EvConnect ctx (dsn e);
               EvPing (pingContext ctx); EvCancel (pingContext ctx);
               EvQuery ctx sqlDatabaseId; EvQuery ctx sqlDatabaseInfo;
               EvAcquire ctx; EvQuery ctx sqlVersion; EvRelease].
Proof.
  intros Hconn Hping Hacq Hrun Hlt out. subst out.
  rewrite (Validate_reachable connect e ctx pool log Hconn Hping).
  destruct (ValidatePostgresVersion_leased ctx pool conn Hacq) as [Hres Htr].
  rewrite Hres, Htr.
  assert (Hcheck : result (doValidatePostgresVersion ctx conn MinPostgresVersion)
                   = Some (ErrUnsupportedVersion got MinPostgresVersion)).
  { unfold doValidatePostgresVersion.
    rewrite result_bind; [|auto with logged|intros; logged].
    rewrite Hrun.
    apply LessThan_tupleLt in Hlt. rewrite <- MinPostgresVersion_value in Hlt.
    now rewrite Hlt. }
  rewrite Hcheck. cbn [fst snd].
  repeat split. intros err. discriminate.
Qed.

Lemma WithTimeout_fresh (ctx : Context) (d : Duration) :
  WithTimeout ctx d <> ctx.
Proof.
  revert d. induction ctx as [|parent IH d']; intros d; [discriminate|].
  intros Heq. injection Heq as Hp _. exact (IH d' Hp).
Qed.

Lemma ValidatePostgresVersion_ranUnder ctx pool :
  Forall (ranUnder ctx) (trace (ValidatePostgresVersion ctx pool)).
Proof.
  destruct (acquireReply pool ctx) as [conn|err] eqn:Hacq.
  - destruct (ValidatePostgresVersion_leased ctx pool conn Hacq) as [_ ->].
    repeat constructor.
  - unfold trace, ValidatePostgresVersion, bind, emit, ret.
    rewrite Hacq. repeat constructor.
Qed.

(** C8: the ping runs under a child of the caller's context whose timeout
    is ten seconds, that is 10 000 000 000 nanoseconds, and the child is
    cancelled once the ping has returned, whether it failed or not; in a
    whole pass the ping and that cancellation are the only operations
    under the child context, all others run under the caller's own. *)
Theorem only_ping_runs_under_timeout
    (e : Executor) (ctx : Context) (pool : Pool) (log : list Event) :
  ValidatePostgresConnection ctx pool log
  = (pingReply pool (WithTimeout ctx 10000000000%Z),
     log ++ [EvPing (WithTimeout ctx 10000000000%Z);
             EvCancel (WithTimeout ctx 10000000000%Z)])
  /\ (Second * 10 = 10 * 1000000000)%Z
  /\ Forall (ranUnder ctx) (trace (Validate connect e ctx))
  /\ WithTimeout ctx 10000000000%Z <> ctx.
Proof.
  split; [apply ValidatePostgresConnection_run|].
  split; [reflexivity|].
  split; [|apply WithTimeout_fresh].
  unfold trace.
  destruct (connect ctx (dsn e)) as [p|err] eqn:Hconn.
  - destruct (pingReply p (pingContext ctx)) as [err|] eqn:Hping.
    + rewrite (Validate_ping_failure connect e ctx p err [] Hconn Hping).
      cbn [snd app]. repeat constructor.
    + rewrite (Validate_reachable connect e ctx p [] Hconn Hping).
      cbn [snd app]. repeat (apply Forall_cons; [reflexivity|]).
      apply ValidatePostgresVersion_ranUnder.
  - rewrite (Validate_connect_failure connect e ctx err [] Hconn).
    cbn [snd app]. repeat constructor.
Qed.

End GateOutcomes.

(** ** The source resolver *)

Section ResolverProperties.

Variable parse : string -> string * string * option error.

(** C5: the resolver passes to the registry's parser the fallback name
    when no source or an empty one is requested, the source followed by
    "/" and the fallback name when the source has no "/", and the source
    unchanged when it has one; with the registry's parser, no source and
    "aws" give the default organization with "aws", "myorg" gives
    ("myorg", "aws"), "myorg/aws2" gives ("myorg", "aws2"), and "a/b/c"
    is rejected as an invalid provider reference. *)
Theorem ParseProviderSource_effective_source
    (requestedSource : option string) (fallbackName : string) :
  fallbackName <> "" ->
  let requested :=
    {| config.Name := fallbackName; config.Source := requestedSource |} in
  (requestedSource = None \/ requestedSource = Some "" ->
   core.ParseProviderSource parse requested = parse fallbackName)
  /\ (forall source, requestedSource = Some source -> source <> "" ->
      ~ (exists a b, source = (a ++ "/" ++ b)%string) ->
      core.ParseProviderSource parse requested
      = parse (source ++ "/" ++ fallbackName)%string)
  /\ (forall source, requestedSource = Some source -> source <> "" ->
      (exists a b, source = (a ++ "/" ++ b)%string) ->
      core.ParseProviderSource parse requested = parse source)
  /\ (forall defaultOrg,
      core.resolve defaultOrg None "aws" = (defaultOrg, "aws", None)
      /\ core.resolve defaultOrg (Some "myorg") "aws" = ("myorg", "aws", None)
      /\ core.resolve defaultOrg (Some "myorg/aws2") "aws"
         = ("myorg", "aws2", None)
      /\ core.resolve defaultOrg (Some "a/b/c") "aws"
         = ("", "", Some (ErrInvalidProviderReference "a/b/c"))).
Proof.
  intros _ requested. subst requested.
  unfold core.ParseProviderSource, core.effectiveSource.
  cbn [config.Name config.Source].
  split; [|split; [|split]].
  - intros [-> | ->]; reflexivity.
  - intros source -> Hne Hno.
    apply String.eqb_neq in Hne. rewrite Hne.
    destruct (Strings.Contains source "/") eqn:Hc.
    + exfalso. apply Hno. now apply Contains_slash.
    + reflexivity.
  - intros source -> Hne Hyes.
    apply String.eqb_neq in Hne. rewrite Hne.
    apply Contains_slash in Hyes. now rewrite Hyes.
  - intros defaultOrg. repeat split.
Qed.

End ResolverProperties.

(** ** The properties at concrete stores *)

Section Runs.

Import postgres.

Lemma Validate_returns_identity_error_witness :
  pingReply Fake.idDenied (pingContext Background) = None
  /\ poolString Fake.idDenied Background sqlDatabaseId
     = ("", Some Fake.deniedErr)
  /\ result (ValidatePostgresVersion Background Fake.idDenied) = None
  /\ snd (fst (Validate (Fake.reach Fake.idDenied) (New "postgres://db")
                 Background []))
     = (true, Some Fake.deniedErr).
Proof.
  split; [reflexivity|]. split; [reflexivity|]. split; [reflexivity|].
  exact (proj1 (Validate_returns_identity_error
                  (Fake.reach Fake.idDenied) (New "postgres://db") Background
                  Fake.idDenied "" Fake.deniedErr []
                  eq_refl eq_refl eq_refl eq_refl)).
Defined.

(** C1, as stated, fails: on a store that answers the ping, refuses the
    identity query and runs version 13.4, the pass returns the identity
    query's error to its caller. *)
Lemma Validate_identity_error_reaches_caller :
  pingReply Fake.idDenied (pingContext Background) = None
  /\ poolString Fake.idDenied Background sqlDatabaseId
     = ("", Some Fake.deniedErr)
  /\ result (ValidatePostgresVersion Background Fake.idDenied) = None
  /\ snd (result (Validate (Fake.reach Fake.idDenied) (New "postgres://db")
                    Background))
     = (true, Some Fake.deniedErr)
  /\ snd (snd (result (Validate (Fake.reach Fake.idDenied)
                         (New "postgres://db") Background)))
     <> None.
Proof.
  split; [reflexivity|]. split; [reflexivity|]. split; [reflexivity|].
  split; [reflexivity|]. discriminate.
Qed.

Lemma Validate_unreachable_short_circuits_witness :
  pingReply Fake.unreachable (pingContext Background) = Some Fake.timeoutErr
  /\ Validate (Fake.reach Fake.unreachable) (New "postgres://db") Background []
     = ((New "postgres://db", (false, Some Fake.timeoutErr)),
        [EvConnect Background "postgres://db";
         EvPing (pingContext Background); EvCancel (pingContext Background)]).
Proof.
  split; [reflexivity|].
  pose proof (Validate_unreachable_short_circuits
                (Fake.reach Fake.unreachable) (New "postgres://db") Background
                Fake.unreachable Fake.timeoutErr [] eq_refl eq_refl)
    as [Hres [Hlog [_ [Hexec _]]]].
  destruct (Validate (Fake.reach Fake.unreachable) (New "postgres://db")
              Background []) as [[e' r] log'].
  cbn [fst snd] in Hres, Hlog, Hexec. now subst.
Defined.

Lemma Validate_incompatible_version_witness :
  result (runningPostgresVersion Background
            (Fake.lease (Fake.systemId, None) (Fake.goodInfo, None)
               (Fake.banner96, None)))
  = inl [9%Z; 6%Z]
  /\ version.LessThan [9%Z; 6%Z] [10%Z; 0%Z] = true
  /\ snd (fst (Validate (Fake.reach Fake.tooOld) (New "postgres://db")
                 Background []))
     = (true, Some (ErrUnsupportedVersion [9%Z; 6%Z] [10%Z; 0%Z])).
Proof.
  split; [reflexivity|]. split; [reflexivity|].
  exact (proj1 (Validate_incompatible_version
                  (Fake.reach Fake.tooOld) (New "postgres://db") Background
                  Fake.tooOld
                  (Fake.lease (Fake.systemId, None) (Fake.goodInfo, None)
                     (Fake.banner96, None))
                  [9%Z; 6%Z] []
                  eq_refl eq_refl eq_refl eq_refl
                  (proj1 (LessThan_tupleLt [9%Z; 6%Z] [10%Z; 0%Z]) eq_refl))).
Defined.

Lemma runningPostgresVersion_second_field_witness :
  scanString Fake.healthy Background sqlVersion = (Fake.banner13, None)
  /\ result (runningPostgresVersion Background Fake.healthy)
     = inl [13%Z; 4%Z].
Proof.
  split; [reflexivity|].
  exact (proj2 (proj2 (runningPostgresVersion_second_field
                         Background Fake.healthy Fake.banner13 [] eq_refl))
           "PostgreSQL" "13.4" " "%char " "%char
           "on x86_64-pc-linux-gnu, compiled by gcc 10.2.1, 64-bit"
           eq_refl eq_refl eq_refl eq_refl eq_refl).
Defined.

(** C4, as stated, fails: the banner of a 13.4 server has the five fields
    and more, its leading field is "PostgreSQL", which is no version, and
    the version returned is that of the second field. *)
Lemma runningPostgresVersion_not_leading_token :
  scanString Fake.healthy Background sqlVersion = (Fake.banner13, None)
  /\ (2 <= length (Strings.Fields Fake.banner13))%nat
  /\ hd "" (Strings.Fields Fake.banner13) = "PostgreSQL"
  /\ result (runningPostgresVersion Background Fake.healthy)
     = inl [13%Z; 4%Z]
  /\ result (runningPostgresVersion Background Fake.healthy)
     <> version.NewVersion (hd "" (Strings.Fields Fake.banner13)).
Proof.
  split; [reflexivity|]. split; [vm_compute; lia|]. split; [reflexivity|].
  split; [reflexivity|]. vm_compute. discriminate.
Qed.

Lemma ParseProviderSource_effective_source_witness :
  "aws" <> ""
  /\ core.ParseProviderSource (registry.ParseProviderName "cloudquery")
       {| config.Name := "aws"; config.Source := Some "myorg" |}
     = ("myorg", "aws", None).
Proof.
  assert (Hname : "aws" <> "") by discriminate.
  split; [exact Hname|].
  assert (Hno : ~ (exists a b, "myorg" = (a ++ "/" ++ b)%string)).
  { intros Hyes. apply Contains_slash in Hyes. discriminate. }
  assert (Hsrc : "myorg" <> "") by discriminate.
  rewrite (proj1 (proj2 (ParseProviderSource_effective_source
                           (registry.ParseProviderName "cloudquery")
                           (Some "myorg") "aws" Hname))
             "myorg" eq_refl Hsrc Hno).
  reflexivity.
Defined.

Lemma GetDatabaseInfo_sentinel_witness :
  scanInfo Fake.statusDown Background sqlDatabaseInfo
  = (Fake.goodInfo, Some Fake.timeoutErr)
  /\ result (GetDatabaseInfo Background Fake.statusDown)
     = {| model.Version := "unknown"; model.Uptime := 0%Z;
          model.FullVersion := "unknown" |}.
Proof.
  assert (Hq : scanInfo Fake.statusDown Background sqlDatabaseInfo
               = (Fake.goodInfo, Some Fake.timeoutErr)) by reflexivity.
  split; [exact Hq|].
  unfold result.
  rewrite (GetDatabaseInfo_sentinel Background Fake.statusDown
             Fake.goodInfo Fake.timeoutErr [] Hq).
  reflexivity.
Defined.

Lemma doValidatePostgresVersion_reflexive_witness :
  result (runningPostgresVersion Background Fake.healthy) = inl [13%Z; 4%Z]
  /\ result (doValidatePostgresVersion Background Fake.healthy [13%Z; 4%Z])
     = None.
Proof.
  split; [reflexivity|].
  exact (proj1 (doValidatePostgresVersion_reflexive
                  Background Fake.healthy [13%Z; 4%Z] eq_refl)).
Defined.

Lemma Validate_version_error_first_witness :
  poolString Fake.tooOldIdDenied Background sqlDatabaseId
  = ("", Some Fake.deniedErr)
  /\ result (ValidatePostgresVersion Background Fake.tooOldIdDenied)
     = Some (ErrUnsupportedVersion [9%Z; 6%Z] [10%Z; 0%Z])
  /\ snd (result (Validate (Fake.reach Fake.tooOldIdDenied)
                    (New "postgres://db") Background))
     = (true, Some (ErrUnsupportedVersion [9%Z; 6%Z] [10%Z; 0%Z])).
Proof.
  split; [reflexivity|]. split; [reflexivity|].
  exact (proj1 (Validate_version_error_first
                  (Fake.reach Fake.tooOldIdDenied) (New "postgres://db")
                  Background Fake.tooOldIdDenied "" (Some Fake.deniedErr)
                  eq_refl eq_refl eq_refl)
           (ErrUnsupportedVersion [9%Z; 6%Z] [10%Z; 0%Z]) eq_refl).
Defined.

Lemma Identifier_presence_witness :
  dbId (New "postgres://db") = ""
  /\ Identifier (New "postgres://db") Background [] = (("", false), [])
  /\ Identifier (fst (result (Validate (Fake.reach Fake.emptyId)
                                 (New "postgres://db") Background)))
       Background []
     = (("", false), []).
Proof.
  split; [reflexivity|].
  pose proof (Identifier_presence (Fake.reach Fake.emptyId)
                (New "postgres://db") Background [])
    as [Hempty [_ [_ Hpass]]].
  split.
  - exact (Hempty eq_refl).
  - exact (Hpass Background Fake.emptyId eq_refl eq_refl eq_refl).
Defined.

End Runs.

(** * Further properties of the code *)

(** ** The validation pass as a whole *)

Section PassAsAWhole.

Import postgres.

Variable connect : Context -> string -> Pool + error.

(** The three ways a pass can go, in one equation. *)
Lemma Validate_cases e ctx log :
  Validate connect e ctx log
  = match connect ctx (dsn e) with
    | inr err => ((e, (false, Some err)), log ++ [EvConnect ctx (dsn e)])
    | inl pool =>
        match pingReply pool (pingContext ctx) with
        | Some err =>
            ((e, (false, Some err)),
             log ++ [EvConnect ctx (dsn e);
                     EvPing (pingContext ctx); EvCancel (pingContext ctx)])
        | None =>
            (({| dsn := dsn e;
                 dbId := fst (poolString pool ctx sqlDatabaseId);
                 info := result (GetDatabaseInfo ctx pool) |},
              (true,
               match result (ValidatePostgresVersion ctx pool) with
               | Some err => Some err
               | None => snd (poolString pool ctx sqlDatabaseId)
               end)),
             log ++ [EvConnect ctx (dsn e);
                     EvPing (pingContext ctx); EvCancel (pingContext ctx);
                     EvQuery ctx sqlDatabaseId; EvQuery ctx sqlDatabaseInfo]
                 ++ trace (ValidatePostgresVersion ctx pool))
        end
    end.
Proof.
  destruct (connect ctx (dsn e)) as [pool|err] eqn:Hconn.
  - destruct (pingReply pool (pingContext ctx)) as [err|] eqn:Hping.
    + exact (Validate_ping_failure connect e ctx pool err log Hconn Hping).
    + exact (Validate_reachable connect e ctx pool log Hconn Hping).
  - exact (Validate_connect_failure connect e ctx err log Hconn).
Qed.

Lemma GetDatabaseInfo_result ctx (pool : Pool) :
  result (GetDatabaseInfo ctx pool)
  = cachedInfo (poolInfo pool ctx sqlDatabaseInfo).
Proof.
  unfold result, GetDatabaseInfo, GetInfo, bind, emit, ret, cachedInfo.
  simpl. destruct (poolInfo pool ctx sqlDatabaseInfo) as [i [err|]];
    reflexivity.
Qed.

(** X1: when the connection cannot be established the pass returns
    connected = false with the connection error itself, has done nothing
    but the connection attempt (no ping, no query, no lease), and leaves
    the executor as it was. *)
Theorem Validate_connect_error_stops
    (e : Executor) (ctx : Context) (err : error) (log : list Event) :
  connect ctx (dsn e) = inr err ->
  Validate connect e ctx log
  = ((e, (false, Some err)), log ++ [EvConnect ctx (dsn e)]).
Proof.
  intros Hconn. rewrite Validate_cases. now rewrite Hconn.
Qed.

(** X2: a pass reports connected = true exactly when the connection was
    established and the ping returned no error; what the identity, status
    and version steps return has no part in it. *)
Theorem Validate_connected_iff (e : Executor) (ctx : Context) :
  fst (snd (result (Validate connect e ctx))) = true
  <-> exists pool, connect ctx (dsn e) = inl pool
                  /\ pingReply pool (pingContext ctx) = None.
Proof.
  unfold result. rewrite Validate_cases.
  destruct (connect ctx (dsn e)) as [pool|err].
  - destruct (pingReply pool (pingContext ctx)) as [err|] eqn:Hping;
      cbn [fst snd]; split.
    + discriminate.
    + intros [p [Hp Hnone]]. injection Hp as <-. congruence.
    + intros _. now exists pool.
    + reflexivity.
  - cbn [fst snd]. split; [discriminate | intros [p [Hp _]]; discriminate].
Qed.

(** X3: a pass returns no error exactly when every step succeeded: the
    connection, the ping, the identity query and the version check.  A
    failed status query alone never produces an error. *)
Theorem Validate_no_error_iff (e : Executor) (ctx : Context) :
  snd (snd (result (Validate connect e ctx))) = None
  <-> exists pool, connect ctx (dsn e) = inl pool
                  /\ pingReply pool (pingContext ctx) = None
                  /\ snd (poolString pool ctx sqlDatabaseId) = None
                  /\ result (ValidatePostgresVersion ctx pool) = None.
Proof.
  unfold result at 1. rewrite Validate_cases.
  destruct (connect ctx (dsn e)) as [pool|err].
  - destruct (pingReply pool (pingContext ctx)) as [err|] eqn:Hping;
      cbn [fst snd]; split.
    + discriminate.
    + intros [p [Hp [Hnone _]]]. injection Hp as <-. congruence.
    + intros Hres. exists pool.
      destruct (result (ValidatePostgresVersion ctx pool)); [discriminate|].
      auto.
    + intros [p [Hp [_ [Hid Hver]]]]. injection Hp as <-.
      now rewrite Hver.
  - cbn [fst snd]. split; [discriminate | intros [p [Hp _]]; discriminate].
Qed.

(** X4: a pass reads nothing of the executor but its connection string:
    two executors with the same connection string get the same pair of
    results and perform the same operations, whatever identity and status
    they had cached, and when the store was reached they end up equal.
    The connection string itself is never changed. *)
Theorem Validate_reads_only_dsn (e e' : Executor) (ctx : Context) :
  dsn e = dsn e' ->
  snd (result (Validate connect e ctx)) = snd (result (Validate connect e' ctx))
  /\ trace (Validate connect e ctx) = trace (Validate connect e' ctx)
  /\ dsn (fst (result (Validate connect e ctx))) = dsn e
  /\ (fst (snd (result (Validate connect e ctx))) = true ->
      fst (result (Validate connect e ctx))
      = fst (result (Validate connect e' ctx))).
Proof.
  intros Hdsn. unfold result, trace. rewrite !Validate_cases, <- Hdsn.
  destruct (connect ctx (dsn e)) as [pool|err].
  - destruct (pingReply pool (pingContext ctx)) as [err|];
      cbn [fst snd dsn]; repeat split; discriminate.
  - cbn [fst snd]. repeat split. discriminate.
Qed.

(** X5: validating again from the executor a pass produced, against a
    store that answers as before, yields the same executor and the same
    pair of results, and performs the same operations once more: nothing
    cached lets a later pass skip a step. *)
Theorem Validate_again (e : Executor) (ctx : Context) (log : list Event) :
  let first := result (Validate connect e ctx) in
  Validate connect (fst first) ctx log
  = (first, log ++ trace (Validate connect e ctx)).
Proof.
  intros first. subst first. unfold result, trace.
  rewrite (Validate_cases e ctx []).
  destruct (connect ctx (dsn e)) as [pool|err] eqn:Hconn.
  - destruct (pingReply pool (pingContext ctx)) as [err|] eqn:Hping;
      cbn [fst snd]; rewrite Validate_cases; cbn [dsn];
      rewrite Hconn, Hping; reflexivity.
  - cbn [fst snd]. rewrite Validate_cases, Hconn. reflexivity.
Qed.

(** X6: [Info] returns the cached status with a nil error and touches
    nothing.  After a pass that reached the store, the status is what the
    status query scanned when it returned no error and the "unknown"
    value when it returned one, whether or not the identity query or the
    version check failed. *)
Theorem Info_after_pass
    (e : Executor) (ctx ictx : Context) (pool : Pool) (log : list Event) :
  connect ctx (dsn e) = inl pool ->
  pingReply pool (pingContext ctx) = None ->
  Info (fst (result (Validate connect e ctx))) ictx log
  = ((cachedInfo (poolInfo pool ctx sqlDatabaseInfo), None), log).
Proof.
  intros Hconn Hping. unfold result.
  rewrite Validate_cases, Hconn, Hping. cbn [fst].
  unfold Info, ret. cbn [info]. now rewrite GetDatabaseInfo_result.
Qed.

(** X7: a failed version check does not cost the identity: after a pass
    that reached a store whose identity query succeeded with a non-empty
    identifier, [Identifier] answers that identifier with present = true
    even though the pass returned the version check's error. *)
Theorem Identifier_survives_version_error
    (e : Executor) (ctx ictx : Context) (pool : Pool)
    (id : string) (verr : error) (log : list Event) :
  connect ctx (dsn e) = inl pool ->
  pingReply pool (pingContext ctx) = None ->
  poolString pool ctx sqlDatabaseId = (id, None) ->
  id <> "" ->
  result (ValidatePostgresVersion ctx pool) = Some verr ->
  snd (result (Validate connect e ctx)) = (true, Some verr)
  /\ Identifier (fst (result (Validate connect e ctx))) ictx log
     = ((id, true), log).
Proof.
  intros Hconn Hping Hid Hne Hver.
  change (result (Validate connect e ctx))
    with (fst (Validate connect e ctx [])).
  rewrite Validate_cases, Hconn, Hping, Hid, Hver. cbn [fst snd].
  split; [reflexivity|].
  unfold Identifier. cbn [dbId].
  apply String.eqb_neq in Hne. now rewrite Hne.
Qed.

End PassAsAWhole.

(** ** The version check *)

Lemma scan_allBlank s :
  allBlank s = true -> Strings.scan s 0 = (EmptyString, []).
Proof.
  induction s as [|c s IH]; intros Hs; [reflexivity|].
  simpl in Hs. apply andb_true_iff in Hs as [Hc Hs].
  rewrite (scan_asciiSpace c s Hc). unfold Strings.Fields.
  now rewrite (IH Hs).
Qed.

Lemma Fields_allBlank s : allBlank s = true -> Strings.Fields s = [].
Proof.
  intros Hs. unfold Strings.Fields. now rewrite (scan_allBlank s Hs).
Qed.

Section ParsedVersions.

Local Open Scope Z_scope.

Lemma digit_range c d : version.digit c = Some d -> 0 <= d <= 9.
Proof.
  unfold version.digit.
  destruct ((48 <=? N_of_ascii c)%N && (N_of_ascii c <=? 57)%N) eqn:Hc;
    [|discriminate].
  intros Hd. injection Hd as <-.
  apply andb_true_iff in Hc as [Hlo Hhi].
  apply N.leb_le in Hlo. apply N.leb_le in Hhi. lia.
Qed.

Lemma digits_nonneg s : forall acc n,
  0 <= acc -> version.digits s acc = Some n -> 0 <= n.
Proof.
  induction s as [|c s IH]; intros acc n Hacc Hn; simpl in Hn.
  - injection Hn as <-. exact Hacc.
  - destruct (version.digit c) as [d|] eqn:Hd; [|discriminate].
    apply digit_range in Hd. apply (IH (10 * acc + d) n); [lia | exact Hn].
Qed.

Lemma components_nonneg parts : forall segments,
  version.components parts = Some segments -> Forall (fun n => 0 <= n) segments.
Proof.
  induction parts as [|p ps IH]; intros segments Hs; simpl in Hs.
  - injection Hs as <-. constructor.
  - destruct (version.component p) as [n|] eqn:Hp; [|discriminate].
    destruct (version.components ps) as [ns|]; [|discriminate].
    injection Hs as <-. constructor; [|now apply IH].
    unfold version.component in Hp. destruct p as [|c p]; [discriminate|].
    apply (digits_nonneg (String c p) 0 n); [lia | exact Hp].
Qed.

(** A parsed version has no negative component. *)
Lemma NewVersion_nonneg v got :
  version.NewVersion v = inl got -> Forall (fun n => 0 <= n) got.
Proof.
  unfold version.NewVersion.
  destruct (version.components _) as [segments|] eqn:Hc; [|discriminate].
  intros Hgot. injection Hgot as <-. now apply components_nonneg in Hc.
Qed.

Lemma nth_nonneg (l : list Z) (i : nat) :
  Forall (fun n => 0 <= n) l -> 0 <= nth i l 0.
Proof.
  intros Hl. revert i. induction Hl as [|x l Hx Hl IH]; intros i.
  - destruct i; simpl; lia.
  - destruct i; simpl; [exact Hx | apply IH].
Qed.

(** Below 10.0 means a major component below 10, for a version without
    negative components. *)
Lemma below_ten_iff (got : list Z) :
  Forall (fun n => 0 <= n) got ->
  tupleLt got [10; 0] <-> hd 0 got < 10.
Proof.
  intros Hgot. split.
  - intros [i [_ Hlt]]. pose proof (nth_nonneg got i Hgot) as Hi.
    destruct i as [|[|i]].
    + now rewrite nth_hd in Hlt.
    + simpl in Hlt. lia.
    + simpl in Hlt. destruct i; simpl in Hlt; lia.
  - intros Hlt. exists 0%nat. split; [intros j Hj; lia|].
    now rewrite nth_hd.
Qed.

End ParsedVersions.

Section VersionCheckOutcomes.

Import postgres.

Context {Q : Type} `{Querier Q}.

Lemma doValidatePostgresVersion_result ctx (q : Q) want :
  result (doValidatePostgresVersion ctx q want)
  = match result (runningPostgresVersion ctx q) with
    | inr err => Some (ErrGettingVersion err)
    | inl got =>
        if version.LessThan got want
        then Some (ErrUnsupportedVersion got want)
        else None
    end.
Proof.
  unfold doValidatePostgresVersion.
  rewrite result_bind; [|auto with logged|intros; logged].
  destruct (result (runningPostgresVersion ctx q)) as [got|err];
    [|reflexivity].
  destruct (version.LessThan got want); reflexivity.
Qed.

(** X10: the version check returns no error exactly when the running
    version could be read and parsed and is not below the wanted one in
    the tuple ordering; a version that cannot be read or parsed never
    passes. *)
Theorem doValidatePostgresVersion_passes_iff
    (ctx : Context) (q : Q) (want : version.Version) :
  result (doValidatePostgresVersion ctx q want) = None
  <-> exists got, result (runningPostgresVersion ctx q) = inl got
                 /\ ~ tupleLt got want.
Proof.
  rewrite doValidatePostgresVersion_result.
  destruct (result (runningPostgresVersion ctx q)) as [got|err].
  - destruct (version.LessThan got want) eqn:Hlt; split.
    + discriminate.
    + intros [g [Hg Hnot]]. injection Hg as <-.
      exfalso. apply Hnot. now apply LessThan_tupleLt.
    + intros _. exists got. split; [reflexivity|].
      intros Hyes. apply LessThan_tupleLt in Hyes. congruence.
    + reflexivity.
  - split; [discriminate | intros [g [Hg _]]; discriminate].
Qed.

(** X12: a banner with no field at all (empty, or white space only) or
    with a single word is rejected with the parse failure that quotes the
    banner; the version library is not consulted. *)
Theorem runningPostgresVersion_short_banner
    (ctx : Context) (q : Q) (banner : string) (log : list Event) :
  scanString q ctx sqlVersion = (banner, None) ->
  allBlank banner = true \/ word banner = true ->
  runningPostgresVersion ctx q log
  = (inr (ErrFailedToParseVersion banner), log ++ [EvQuery ctx sqlVersion]).
Proof.
  intros Hq Hshape.
  rewrite (runningPostgresVersion_run ctx q banner log Hq).
  destruct Hshape as [Hblank | Hword].
  - now rewrite (Fields_allBlank banner Hblank).
  - now rewrite (Fields_word banner Hword).
Qed.

(** X13: against the minimum 10.0 the check comes down to the major
    version: when the banner's second field parses as a version, the
    check passes exactly when its first component is at least 10. *)
Theorem doValidatePostgresVersion_major_rule
    (ctx : Context) (q : Q) (banner first token : string)
    (rest : list string) (got : version.Version) :
  scanString q ctx sqlVersion = (banner, None) ->
  Strings.Fields banner = first :: token :: rest ->
  version.NewVersion token = inl got ->
  result (doValidatePostgresVersion ctx q MinPostgresVersion) = None
  <-> (10 <= hd 0 got)%Z.
Proof.
  intros Hq Hfields Htoken.
  rewrite doValidatePostgresVersion_result. unfold result at 1.
  rewrite (runningPostgresVersion_run ctx q banner [] Hq), Hfields.
  cbn [fst]. rewrite Htoken.
  pose proof (below_ten_iff got (NewVersion_nonneg token got Htoken)) as Hten.
  rewrite MinPostgresVersion_value.
  destruct (version.LessThan got [10%Z; 0%Z]) eqn:Hlt; split.
  - discriminate.
  - intros Hmajor. apply LessThan_tupleLt in Hlt. apply Hten in Hlt. lia.
  - intros _.
    destruct (Z_lt_le_dec (hd 0%Z got) 10) as [Hlow|Hok]; [|exact Hok].
    apply Hten in Hlow. apply LessThan_tupleLt in Hlow. congruence.
  - reflexivity.
Qed.

End VersionCheckOutcomes.

Section VersionStepOfAPass.

Import postgres.

Variable connect : Context -> string -> Pool + error.

(** X8: when no connection can be leased for the version check, the pass
    still reports connected = true and returns the lease's error as it
    is; no version query is sent and nothing is released, and the
    identity and status were stored before. *)
Theorem Validate_lease_error
    (e : Executor) (ctx : Context) (pool : Pool) (err : error)
    (log : list Event) :
  connect ctx (dsn e) = inl pool ->
  pingReply pool (pingContext ctx) = None ->
  acquireReply pool ctx = inr err ->
  Validate connect e ctx log
  = (({| dsn := dsn e;
         dbId := fst (poolString pool ctx sqlDatabaseId);
         info := cachedInfo (poolInfo pool ctx sqlDatabaseInfo) |},
      (true, Some err)),
     log ++ [EvConnect ctx (dsn e);
             EvPing (pingContext ctx); EvCancel (pingContext ctx);
             EvQuery ctx sqlDatabaseId; EvQuery ctx sqlDatabaseInfo;
             EvAcquire ctx]).
Proof.
  intros Hconn Hping Hacq.
  rewrite (Validate_reachable connect e ctx pool log Hconn Hping).
  rewrite <- GetDatabaseInfo_result.
  assert (Hrun : ValidatePostgresVersion ctx pool []
                 = (Some err, [EvAcquire ctx])).
  { unfold ValidatePostgresVersion, bind, emit, ret. now rewrite Hacq. }
  unfold result, trace. now rewrite Hrun.
Qed.

(** X9: a leased connection is always given back: once the lease
    succeeds the version step performs exactly the lease, the version
    query and the release, in this order, whether the query fails, the
    banner cannot be parsed, the version is too old or the check
    passes. *)
Theorem ValidatePostgresVersion_releases
    (ctx : Context) (pool : Pool) (conn : Conn) (log : list Event) :
  acquireReply pool ctx = inl conn ->
  ValidatePostgresVersion ctx pool log
  = (result (doValidatePostgresVersion ctx conn MinPostgresVersion),
     log ++ [EvAcquire ctx; EvQuery ctx sqlVersion; EvRelease]).
Proof.
  intros Hacq.
  destruct (ValidatePostgresVersion_leased ctx pool conn Hacq) as [Hres Htr].
  rewrite (Logged_ValidatePostgresVersion ctx pool log).
  now rewrite Hres, Htr.
Qed.

(** X11: when the running version cannot be determined on the leased
    connection (the query fails, the banner has fewer than two fields, or
    its second field is no version) the pass reports connected = true
    and returns that cause wrapped as an error getting the version,
    whatever the identity query returned. *)
Theorem Validate_unreadable_version
    (e : Executor) (ctx : Context) (pool : Pool) (conn : Conn)
    (cause : error) :
  connect ctx (dsn e) = inl pool ->
  pingReply pool (pingContext ctx) = None ->
  acquireReply pool ctx = inl conn ->
  result (runningPostgresVersion ctx conn) = inr cause ->
  snd (result (Validate connect e ctx))
  = (true, Some (ErrGettingVersion cause)).
Proof.
  intros Hconn Hping Hacq Hrun. unfold result at 1.
  rewrite (Validate_reachable connect e ctx pool [] Hconn Hping).
  destruct (ValidatePostgresVersion_leased ctx pool conn Hacq) as [Hres _].
  rewrite Hres, doValidatePostgresVersion_result, Hrun. reflexivity.
Qed.

End VersionStepOfAPass.

(** ** The source handed to the registry *)

(** X14: when a non-empty source is requested, what the registry's
    parser receives begins with that source and contains the separator
    "/": it is the source itself or the source, "/" and the provider
    name, never a bare name for the parser to complete. *)
Theorem ParseProviderSource_qualified
    (requested : config.RequiredProvider) (source : string) :
  config.Source requested = Some source ->
  source <> "" ->
  exists handed tail,
    (forall parse, core.ParseProviderSource parse requested = parse handed)
    /\ handed = (source ++ tail)%string
    /\ (tail = "" \/ tail = ("/" ++ config.Name requested)%string)
    /\ Strings.Contains handed "/" = true.
Proof.
  intros Hsrc Hne.
  unfold core.ParseProviderSource, core.effectiveSource. rewrite Hsrc.
  apply String.eqb_neq in Hne. rewrite Hne.
  destruct (Strings.Contains source "/") eqn:Hc; cbn [negb].
  - exists source, EmptyString. repeat split.
    + now rewrite append_empty_r.
    + now left.
    + exact Hc.
  - exists (source ++ "/" ++ config.Name requested)%string,
      ("/" ++ config.Name requested)%string.
    repeat split.
    + now right.
    + apply Contains_slash. now exists source, (config.Name requested).
Qed.

(** ** The sync command *)

Section SyncCommand.

Variables Client SyncResult Diagnostics ConfigMutator : Type.
Variable CreateClient :
  Context -> string -> bool -> option ConfigMutator -> string -> Client + error.
Variable SyncProviders :
  Client -> Context -> list string -> SyncResult * Diagnostics.
Variable HasErrors : Diagnostics -> bool.
Variables configFile instanceId : string.

(** X15: the sync command returns no error exactly when the client was
    created and the diagnostics of the sync carry no error.  When the
    client cannot be created nothing is synced and nothing is captured;
    otherwise the diagnostics are captured once, tagged with the command
    name "provider_sync", after the sync and whether or not they carry
    errors. *)
Theorem RunE_outcome (ctx : Context) (args : list string) :
  let run := provider.RunE Client SyncResult Diagnostics ConfigMutator
               CreateClient SyncProviders HasErrors
               configFile instanceId ctx args in
  (fst run = None
   <-> exists c, CreateClient ctx configFile false None instanceId = inl c
                 /\ HasErrors (snd (SyncProviders c ctx args)) = false)
  /\ (forall err,
        CreateClient ctx configFile false None instanceId = inr err ->
        run = (Some (provider.ErrClient Diagnostics err),
               [provider.SyCreateClient Diagnostics ctx configFile instanceId]))
  /\ (forall c,
        CreateClient ctx configFile false None instanceId = inl c ->
        snd run
        = [provider.SyCreateClient Diagnostics ctx configFile instanceId;
           provider.SySyncProviders Diagnostics ctx args;
           provider.SyCaptureDiagnostics Diagnostics (snd (SyncProviders c ctx args))
             [("command", "provider_sync")]]).
Proof.
  intros run. subst run. unfold provider.RunE.
  destruct (CreateClient ctx configFile false None instanceId) as [c|err].
  - destruct (SyncProviders c ctx args) as [res diags] eqn:Hsync.
    destruct (HasErrors diags) eqn:Herr; cbn [fst snd].
    + split; [split|split].
      * discriminate.
      * intros [c' [Hc Hno]]. injection Hc as <-.
        rewrite Hsync in Hno. cbn [snd] in Hno. congruence.
      * intros err Hc. discriminate.
      * intros c' Hc. injection Hc as <-. now rewrite Hsync.
    + split; [split|split].
      * intros _. exists c. rewrite Hsync. now split.
      * reflexivity.
      * intros err Hc. discriminate.
      * intros c' Hc. injection Hc as <-. now rewrite Hsync.
  - cbn [fst snd]. split; [split|split].
    + discriminate.
    + intros [c [Hc _]]. discriminate.
    + intros err' Hc. injection Hc as <-. reflexivity.
    + intros c Hc. discriminate.
Qed.

End SyncCommand.

(** ** The further properties at concrete stores *)

Section FurtherRuns.

Import postgres.

Lemma Validate_connect_error_stops_witness :
  Validate (Fake.refuse Fake.refusedErr) (New "postgres://db") Background []
  = ((New "postgres://db", (false, Some Fake.refusedErr)),
     [EvConnect Background "postgres://db"]).
Proof.
  exact (Validate_connect_error_stops (Fake.refuse Fake.refusedErr)
           (New "postgres://db") Background Fake.refusedErr [] eq_refl).
Defined.

Lemma Validate_reads_only_dsn_witness :
  dsn (New "postgres://db")
  = dsn {| dsn := "postgres://db"; dbId := "stale";
           info := unknownInfo |}
  /\ fst (result (Validate (Fake.reach Fake.healthy) (New "postgres://db")
                    Background))
     = fst (result (Validate (Fake.reach Fake.healthy)
                      {| dsn := "postgres://db"; dbId := "stale";
                         info := unknownInfo |}
                      Background)).
Proof.
  split; [reflexivity|].
  exact (proj2 (proj2 (proj2
           (Validate_reads_only_dsn (Fake.reach Fake.healthy)
              (New "postgres://db")
              {| dsn := "postgres://db"; dbId := "stale";
                 info := unknownInfo |}
              Background eq_refl))) eq_refl).
Defined.

Lemma Info_after_pass_witness :
  pingReply Fake.statusDown (pingContext Background) = None
  /\ Info (fst (result (Validate (Fake.reach Fake.statusDown)
                          (New "postgres://db") Background)))
       Background []
     = ((unknownInfo, None), []).
Proof.
  split; [reflexivity|].
  exact (Info_after_pass (Fake.reach Fake.statusDown) (New "postgres://db")
           Background Background Fake.statusDown [] eq_refl eq_refl).
Defined.

Lemma Identifier_survives_version_error_witness :
  poolString Fake.tooOld Background sqlDatabaseId = (Fake.systemId, None)
  /\ Fake.systemId <> ""
  /\ result (ValidatePostgresVersion Background Fake.tooOld)
     = Some (ErrUnsupportedVersion [9%Z; 6%Z] [10%Z; 0%Z])
  /\ Identifier (fst (result (Validate (Fake.reach Fake.tooOld)
                                (New "postgres://db") Background)))
       Background []
     = ((Fake.systemId, true), []).
Proof.
  assert (Hid : Fake.systemId <> "") by discriminate.
  split; [reflexivity|]. split; [exact Hid|]. split; [reflexivity|].
  exact (proj2 (Identifier_survives_version_error
                  (Fake.reach Fake.tooOld) (New "postgres://db")
                  Background Background Fake.tooOld Fake.systemId
                  (ErrUnsupportedVersion [9%Z; 6%Z] [10%Z; 0%Z]) []
                  eq_refl eq_refl eq_refl Hid eq_refl)).
Defined.

Lemma Validate_lease_error_witness :
  acquireReply Fake.noLease Background = inr Fake.exhaustedErr
  /\ snd (fst (Validate (Fake.reach Fake.noLease) (New "postgres://db")
                 Background []))
     = (true, Some Fake.exhaustedErr).
Proof.
  split; [reflexivity|].
  rewrite (Validate_lease_error (Fake.reach Fake.noLease)
             (New "postgres://db") Background Fake.noLease
             Fake.exhaustedErr [] eq_refl eq_refl eq_refl).
  reflexivity.
Defined.

Lemma ValidatePostgresVersion_releases_witness :
  acquireReply Fake.versionDown Background
  = inl (Fake.lease (Fake.systemId, None) (Fake.goodInfo, None)
           ("", Some Fake.timeoutErr))
  /\ ValidatePostgresVersion Background Fake.versionDown []
     = (Some (ErrGettingVersion Fake.timeoutErr),
        [EvAcquire Background; EvQuery Background sqlVersion; EvRelease]).
Proof.
  split; [reflexivity|].
  rewrite (ValidatePostgresVersion_releases Background Fake.versionDown
             (Fake.lease (Fake.systemId, None) (Fake.goodInfo, None)
                ("", Some Fake.timeoutErr))
             [] eq_refl).
  reflexivity.
Defined.

Lemma Validate_unreadable_version_witness :
  result (runningPostgresVersion Background
            (Fake.lease (Fake.systemId, None) (Fake.goodInfo, None)
               ("PostgreSQL", None)))
  = inr (ErrFailedToParseVersion "PostgreSQL")
  /\ snd (result (Validate (Fake.reach Fake.oneWord) (New "postgres://db")
                    Background))
     = (true, Some (ErrGettingVersion (ErrFailedToParseVersion "PostgreSQL"))).
Proof.
  split; [reflexivity|].
  exact (Validate_unreadable_version (Fake.reach Fake.oneWord)
           (New "postgres://db") Background Fake.oneWord
           (Fake.lease (Fake.systemId, None) (Fake.goodInfo, None)
              ("PostgreSQL", None))
           (ErrFailedToParseVersion "PostgreSQL")
           eq_refl eq_refl eq_refl eq_refl).
Defined.

Lemma runningPostgresVersion_short_banner_witness :
  scanString Fake.oneWord Background sqlVersion = ("PostgreSQL", None)
  /\ word "PostgreSQL" = true
  /\ runningPostgresVersion Background Fake.oneWord []
     = (inr (ErrFailedToParseVersion "PostgreSQL"),
        [EvQuery Background sqlVersion]).
Proof.
  assert (Hq : scanString Fake.oneWord Background sqlVersion
               = ("PostgreSQL", None)) by reflexivity.
  split; [exact Hq|]. split; [reflexivity|].
  exact (runningPostgresVersion_short_banner Background Fake.oneWord
           "PostgreSQL" [] Hq (or_intror eq_refl)).
Defined.

Lemma doValidatePostgresVersion_major_rule_witness :
  Strings.Fields Fake.banner13
  = ["PostgreSQL"; "13.4"; "on"; "x86_64-pc-linux-gnu,"; "compiled"; "by";
     "gcc"; "10.2.1,"; "64-bit"]
  /\ version.NewVersion "13.4" = inl [13%Z; 4%Z]
  /\ result (doValidatePostgresVersion Background Fake.healthy
               MinPostgresVersion)
     = None.
Proof.
  assert (Hq : scanString Fake.healthy Background sqlVersion
               = (Fake.banner13, None)) by reflexivity.
  split; [reflexivity|]. split; [reflexivity|].
  apply (proj2 (doValidatePostgresVersion_major_rule Background Fake.healthy
                  Fake.banner13 "PostgreSQL" "13.4"
                  ["on"; "x86_64-pc-linux-gnu,"; "compiled"; "by";
                   "gcc"; "10.2.1,"; "64-bit"]
                  [13%Z; 4%Z] Hq eq_refl eq_refl)).
  simpl. lia.
Defined.

Lemma ParseProviderSource_qualified_witness :
  "myorg" <> ""
  /\ exists handed tail,
       (forall parse,
          core.ParseProviderSource parse
            {| config.Name := "aws"; config.Source := Some "myorg" |}
          = parse handed)
       /\ handed = ("myorg" ++ tail)%string
       /\ (tail = "" \/ tail = "/aws")
       /\ Strings.Contains handed "/" = true.
Proof.
  assert (Hsrc : "myorg" <> "") by discriminate.
  split; [exact Hsrc|].
  exact (ParseProviderSource_qualified
           {| config.Name := "aws"; config.Source := Some "myorg" |}
           "myorg" eq_refl Hsrc).
Defined.

Lemma RunE_outcome_witness :
  Fake.createClient Background "" false None "instance"
  = inr (DriverError "no config file")
  /\ provider.RunE unit nat (list string) unit
       Fake.createClient Fake.syncProviders Fake.hasErrors
       "" "instance" Background ["aws"]
     = (Some (provider.ErrClient (list string) (DriverError "no config file")),
        [provider.SyCreateClient (list string) Background "" "instance"]).
Proof.
  split; [reflexivity|].
  exact (proj1 (proj2 (RunE_outcome unit nat (list string) unit
                         Fake.createClient Fake.syncProviders Fake.hasErrors
                         "" "instance" Background ["aws"]))
           (DriverError "no config file") eq_refl).
Defined.

End FurtherRuns.

(** ** What a pass sends to the store *)

Section QueriesOfAPass.

Import postgres.

Variable connect : Context -> string -> Pool + error.

(** X16: the identity query, the status query and the lease for the
    version check are attempted exactly in the passes that report
    connected = true: never before the store has answered the ping, and
    always once it has. *)
Theorem Validate_queries_iff_connected (e : Executor) (ctx : Context) :
  let connected := fst (snd (result (Validate connect e ctx))) in
  let done := trace (Validate connect e ctx) in
  (In (EvQuery ctx sqlDatabaseId) done <-> connected = true)
  /\ (In (EvQuery ctx sqlDatabaseInfo) done <-> connected = true)
  /\ (In (EvAcquire ctx) done <-> connected = true)
  /\ (existsb isStoreQuery done = connected).
Proof.
  intros connected done. subst connected done. unfold result, trace.
  rewrite Validate_cases.
  destruct (connect ctx (dsn e)) as [pool|err].
  - destruct (pingReply pool (pingContext ctx)) as [err|].
    + cbn [fst snd app]. repeat split; try discriminate;
        intros Hin; simpl in Hin; intuition discriminate.
    + cbn [fst snd app].
      assert (Hlease : In (EvAcquire ctx)
                         (trace (ValidatePostgresVersion ctx pool))).
      { destruct (acquireReply pool ctx) as [conn|err] eqn:Hacq.
        - destruct (ValidatePostgresVersion_leased ctx pool conn Hacq)
            as [_ ->]. now left.
        - unfold trace, ValidatePostgresVersion, bind, emit, ret.
          rewrite Hacq. now left. }
      split; [split; [intros _; reflexivity
                     | intros _; do 3 right; left; reflexivity]|].
      split; [split; [intros _; reflexivity
                     | intros _; do 4 right; left; reflexivity]|].
      split; [split; [intros _; reflexivity
                     | intros _; do 5 right; exact Hlease]|].
      reflexivity.
  - cbn [fst snd app]. repeat split; try discriminate;
      intros Hin; simpl in Hin; intuition discriminate.
Qed.

End QueriesOfAPass.
